(** * osdctl, cmd/cloudtrail/event.go

    A shallow embedding of the CloudTrail event paginator [GetEvents] and of
    the event detail extractor [ExtractUserDetails], with the parts of the Go
    runtime and libraries they call: nil dereference, [fmt.Sscanf] on the
    format [%d.%d], [encoding/json] decoding into [RawEventDetails], and the
    AWS SDK's [LookupEventsPaginator].  After them come the route table
    search of pkg/utils/network.go, the options of cmd/cluster/cad/run.go and
    [FetchClusterDetails] of cmd/dynatrace/cluster.go with [strings.SplitAfter].

    Conventions.  A Go [string] is a sequence of bytes: it is a Rocq [string],
    whose characters are the bytes.  A pointer is an [option]; [None] is nil.
    A slice is a [list]; the nil slice is the empty list.  The machine is a
    64-bit one ([int] is [int64]). *)

From Stdlib Require Import ZArith List String Ascii Bool Lia.
Import ListNotations.

Local Open Scope string_scope.
Local Open Scope Z_scope.

Set Warnings "-register-all,-abstract-large-number".

(** ** Bytes and strings *)

Definition byte_val (c : ascii) : Z := Z.of_N (N_of_ascii c).

Definition byte_of (z : Z) : ascii := ascii_of_N (Z.to_N z).

(** The double quote character, code 34. *)
Definition dquote : ascii := "034"%char.

Definition between (lo hi : Z) (c : ascii) : bool :=
  (lo <=? byte_val c) && (byte_val c <=? hi).

Definition is_digit (c : ascii) : bool := between 48 57 c.

(** The digits at the start of [s], and the rest. *)
Fixpoint digit_span (s : string) : string * string :=
  match s with
  | String c r =>
      if is_digit c then let '(d, rest) := digit_span r in (String c d, rest)
      else (EmptyString, s)
  | EmptyString => (EmptyString, s)
  end.

Fixpoint drop (n : nat) (s : string) : string :=
  match n, s with
  | O, _ => s
  | S _, EmptyString => EmptyString
  | S n', String _ r => drop n' r
  end.

Definition len (s : string) : nat := String.length s.

(** Writes a text with single quotes for the double quotes of a JSON text. *)
Fixpoint json_text (s : string) : string :=
  match s with
  | EmptyString => EmptyString
  | String c r => String (if Ascii.eqb c "'"%char then dquote else c) (json_text r)
  end.

(** ** The Go runtime: panics and errors *)

(** A computation that returns or panics. *)
Inductive Go (A : Type) : Type :=
| Ret (a : A)
| Panic (msg : string).
Arguments Ret {A} a.
Arguments Panic {A} msg.

Definition bind {A B : Type} (m : Go A) (k : A -> Go B) : Go B :=
  match m with
  | Ret a => k a
  | Panic msg => Panic msg
  end.

Notation "x <- m ;; k" := (bind m (fun x => k))
  (at level 61, m at next level, right associativity).

Definition nil_dereference : string :=
  "runtime error: invalid memory address or nil pointer dereference".

(** [*p]: dereferencing a nil pointer panics. *)
Definition deref {A : Type} (p : option A) : Go A :=
  match p with
  | Some a => Ret a
  | None => Panic nil_dereference
  end.

(** The values of the interface [error] that the code can meet.  An
    [UnmarshalTypeError] keeps the JSON kind it met; a [NumError] of
    [strconv] is [ErrSyntax] or [ErrRange]. *)
Inductive error : Type :=
| errorString (msg : string)
| wrapError (msg : string) (err : error)
| EOF
| ErrUnexpectedEOF
| ErrSyntax
| ErrRange
| SyntaxError
| UnmarshalTypeError (Value : string).

(** ** unicode/utf8 *)

Module utf8.

Definition RuneError : Z := 65533.

(** The table [first]: for a leading byte, the size of the sequence and the
    range allowed for the second byte; [None] for a byte that starts no
    sequence. *)
Definition first (p0 : Z) : option (nat * Z * Z) :=
  if p0 <? 194 then None
  else if p0 <? 224 then Some (2%nat, 128, 191)
  else if p0 =? 224 then Some (3%nat, 160, 191)
  else if p0 <? 237 then Some (3%nat, 128, 191)
  else if p0 =? 237 then Some (3%nat, 128, 159)
  else if p0 <? 240 then Some (3%nat, 128, 191)
  else if p0 =? 240 then Some (4%nat, 144, 191)
  else if p0 <? 244 then Some (4%nat, 128, 191)
  else if p0 =? 244 then Some (4%nat, 128, 143)
  else None.

Definition cont (b : Z) : bool := (128 <=? b) && (b <=? 191).

(** [DecodeRune p]: the first rune of [p] and its width in bytes;
    [(RuneError, 0)] on the empty string and [(RuneError, 1)] on an invalid
    or short encoding. *)
Definition DecodeRune (p : string) : Z * nat :=
  match p with
  | EmptyString => (RuneError, 0%nat)
  | String c0 p1 =>
      let p0 := byte_val c0 in
      if p0 <? 128 then (p0, 1%nat)
      else
        match first p0 with
        | None => (RuneError, 1%nat)
        | Some (sz, lo, hi) =>
            match p1 with
            | EmptyString => (RuneError, 1%nat)
            | String c1 p2 =>
                let b1 := byte_val c1 in
                if (b1 <? lo) || (hi <? b1) then (RuneError, 1%nat)
                else if (sz <=? 2)%nat
                then (Z.lor (Z.shiftl (Z.land p0 31) 6) (Z.land b1 63), 2%nat)
                else
                  match p2 with
                  | EmptyString => (RuneError, 1%nat)
                  | String c2 p3 =>
                      let b2 := byte_val c2 in
                      if negb (cont b2) then (RuneError, 1%nat)
                      else if (sz <=? 3)%nat
                      then (Z.lor (Z.shiftl (Z.land p0 15) 12)
                              (Z.lor (Z.shiftl (Z.land b1 63) 6) (Z.land b2 63)),
                            3%nat)
                      else
                        match p3 with
                        | EmptyString => (RuneError, 1%nat)
                        | String c3 _ =>
                            let b3 := byte_val c3 in
                            if negb (cont b3) then (RuneError, 1%nat)
                            else (Z.lor (Z.shiftl (Z.land p0 7) 18)
                                    (Z.lor (Z.shiftl (Z.land b1 63) 12)
                                       (Z.lor (Z.shiftl (Z.land b2 63) 6)
                                          (Z.land b3 63))),
                                  4%nat)
                        end
                  end
            end
        end
  end.

Definition bytes (l : list Z) : string :=
  fold_right (fun z s => String (byte_of z) s) EmptyString l.

(** [EncodeRune r]: the UTF-8 encoding of [r]; that of [RuneError] for a
    surrogate or a value out of range. *)
Definition EncodeRune (r : Z) : string :=
  if (0 <=? r) && (r <=? 127) then bytes [r]
  else if (0 <=? r) && (r <=? 2047)
  then bytes [Z.lor 192 (Z.shiftr r 6); Z.lor 128 (Z.land r 63)]
  else if (r <? 0) || (1114111 <? r) || ((55296 <=? r) && (r <=? 57343))
  then bytes [239; 191; 189]
  else if r <=? 65535
  then bytes [Z.lor 224 (Z.shiftr r 12);
              Z.lor 128 (Z.land (Z.shiftr r 6) 63);
              Z.lor 128 (Z.land r 63)]
  else bytes [Z.lor 240 (Z.shiftr r 18);
              Z.lor 128 (Z.land (Z.shiftr r 12) 63);
              Z.lor 128 (Z.land (Z.shiftr r 6) 63);
              Z.lor 128 (Z.land r 63)].

End utf8.

(** ** strconv *)

Module strconv.

Definition maxUint64 : Z := 2 ^ 64 - 1.

(** Conversion to [int64], with wrap-around. *)
Definition int64 (z : Z) : Z := (z + 2 ^ 63) mod 2 ^ 64 - 2 ^ 63.

(** The loop of [ParseUint s 10 64] over the bytes of [s]: [n] is the value
    read so far. *)
Fixpoint ParseUint_loop (s : string) (n : Z) : error + Z :=
  match s with
  | EmptyString => inr n
  | String c r =>
      if is_digit c then
        let d := byte_val c - 48 in
        let cutoff := maxUint64 / 10 + 1 in
        if cutoff <=? n then inl ErrRange
        else
          let n' := n * 10 in
          let n1 := (n' + d) mod 2 ^ 64 in
          if (n1 <? n') || (maxUint64 <? n1) then inl ErrRange
          else ParseUint_loop r n1
      else inl ErrSyntax
  end.

Definition ParseUint (s : string) : error + Z :=
  match s with
  | EmptyString => inl ErrSyntax
  | _ => ParseUint_loop s 0
  end.

(** [ParseInt s 10 64]. *)
Definition ParseInt (s : string) : error + Z :=
  match s with
  | EmptyString => inl ErrSyntax
  | String c r =>
      let '(neg, s1) :=
        if Ascii.eqb c "+" then (false, r)
        else if Ascii.eqb c "-" then (true, r)
        else (false, s) in
      match ParseUint s1 with
      | inl ErrRange => inl ErrRange
      | inl e => inl e
      | inr un =>
          let cutoff := 2 ^ 63 in
          if negb neg && (cutoff <=? un) then inl ErrRange
          else if neg && (cutoff <? un) then inl ErrRange
          else
            let n := int64 un in
            inr (if neg then int64 (- n) else n)
      end
  end.

End strconv.

(** ** fmt: scanning with the format [%d.%d]

    The scanner of [Sscanf], for the one format that the program uses.  Its
    limit of [2^30] runes for an operand is left out: a version is shorter. *)

Module fmt.

(** The table [space] of the scanner. *)
Definition space : list (Z * Z) :=
  [ (9, 13); (32, 32); (133, 133); (160, 160); (5760, 5760); (8192, 8202);
    (8232, 8233); (8239, 8239); (8287, 8287); (12288, 12288) ].

Fixpoint in_ranges (rx : Z) (l : list (Z * Z)) : bool :=
  match l with
  | [] => false
  | (lo, hi) :: tl =>
      if rx <? lo then false
      else if rx <=? hi then true
      else in_ranges rx tl
  end.

Definition isSpace (r : Z) : bool :=
  if 65536 <=? r then false else in_ranges r space.

(** Reads a rune; [None] at the end of the input. *)
Definition getRune (s : string) : option (Z * string) :=
  match s with
  | EmptyString => None
  | _ => let '(r, size) := utf8.DecodeRune s in Some (r, drop size s)
  end.

(** [peek ok]: whether the next rune is the character [ok]. *)
Definition peek (ok : Z) (s : string) : bool :=
  match getRune s with
  | Some (r, _) => r =? ok
  | None => false
  end.

(** [SkipSpace] in a scan where a newline is no space ([Sscanf]).  The
    first argument bounds the number of runes read; the length of the
    input is enough, and at 0 the input is at its end. *)
Fixpoint SkipSpace_loop (n : nat) (s : string) : error + string :=
  match n with
  | O => inr s
  | S n' =>
      match getRune s with
      | None => inr s
      | Some (r, rest) =>
          if (r =? 13) && peek 10 rest then SkipSpace_loop n' rest
          else if r =? 10 then inl (errorString "unexpected newline")
          else if negb (isSpace r) then inr s
          else SkipSpace_loop n' rest
      end
  end.

Definition SkipSpace (s : string) : error + string :=
  SkipSpace_loop (len s) s.

(** Membership of a byte in a set of ASCII characters.  A rune of the input
    is in such a set exactly when its first byte is. *)
Fixpoint mem (c : ascii) (ok : string) : bool :=
  match ok with
  | EmptyString => false
  | String k r => Ascii.eqb c k || mem c r
  end.

Definition sign : string := "+-".

(** [decimalDigits], the set that [getBase] gives the verb [%d]; the
    underscore is a digit for the verb [%v] only. *)
Definition digits : string := "0123456789".

(** [accept ok]: consumes the next character when it is in [ok]. *)
Definition accept (ok : string) (s : string) : string * string :=
  match s with
  | String c r => if mem c ok then (String c EmptyString, r) else (EmptyString, s)
  | EmptyString => (EmptyString, s)
  end.

(** [for s.accept(ok) {}]: the longest prefix in [ok], and the rest. *)
Fixpoint accept_all (ok : string) (s : string) : string * string :=
  match s with
  | String c r =>
      if mem c ok
      then let '(tok, rest) := accept_all ok r in (String c tok, rest)
      else (EmptyString, s)
  | EmptyString => (EmptyString, s)
  end.

(** [scanNumber digits false], after the token [buf] read so far. *)
Definition scanNumber (buf : string) (s : string) : error + (string * string) :=
  match s with
  | EmptyString => inl EOF
  | _ =>
      let '(tok, rest) := accept_all digits s in
      match tok with
      | EmptyString => inl (errorString "expected integer")
      | _ => inr (buf ++ tok, rest)
      end
  end.

(** [scanInt 'd' 64]. *)
Definition scanInt (s : string) : error + (Z * string) :=
  match SkipSpace s with
  | inl e => inl e
  | inr s1 =>
      match s1 with
      | EmptyString => inl EOF
      | _ =>
          let '(buf, s2) := accept sign s1 in
          match scanNumber buf s2 with
          | inl e => inl e
          | inr (tok, s3) =>
              match strconv.ParseInt tok with
              | inl e => inl e
              | inr i => inr (i, s3)
              end
          end
      end
  end.

(** One verb [%d] of [doScanf]: spaces are skipped before the operand is
    scanned. *)
Definition verb_d (s : string) : error + (Z * string) :=
  match SkipSpace s with
  | inl e => inl e
  | inr s1 => scanInt s1
  end.

(** The literal [.] of the format, in [advance]. *)
Definition literal_dot (s : string) : error + string :=
  match getRune s with
  | None => inl ErrUnexpectedEOF
  | Some (r, rest) =>
      if r =? 46 then inr rest
      else inl (errorString "input does not match format")
  end.

(** [Sscanf str "%d.%d" &major &minor]: the values of the two operands
    after the call, and the error.  What follows the second number in
    [str] is not read. *)
Definition Sscanf (str : string) (major minor : Z) : Z * Z * option error :=
  match verb_d str with
  | inl e => (major, minor, Some e)
  | inr (a, s1) =>
      match literal_dot s1 with
      | inl e => (a, minor, Some e)
      | inr s2 =>
          match verb_d s2 with
          | inl e => (a, minor, Some e)
          | inr (b, _) => (a, b, None)
          end
      end
  end.

End fmt.

(** ** encoding/json *)

Module json.

(** A JSON text as the decoder reads it: the keys and the strings are
    unquoted, a number keeps its literal. *)
Inductive value : Type :=
| Null
| Bool (b : bool)
| Number (lit : string)
| Str (s : string)
| Array (elems : list value)
| Object (members : list (string * value)).

Definition maxNestingDepth : nat := 10000.

Definition isSpace (c : ascii) : bool :=
  let b := byte_val c in
  (b =? 32) || (b =? 9) || (b =? 13) || (b =? 10).

Fixpoint skip_space (s : string) : string :=
  match s with
  | String c r => if isSpace c then skip_space r else s
  | EmptyString => s
  end.

Definition hex_val (c : ascii) : option Z :=
  let b := byte_val c in
  if (48 <=? b) && (b <=? 57) then Some (b - 48)
  else if (97 <=? b) && (b <=? 102) then Some (b - 97 + 10)
  else if (65 <=? b) && (b <=? 70) then Some (b - 65 + 10)
  else None.

(** [getu4 s]: the value of the escape [\uXXXX] at the start of [s], and
    what follows it. *)
Definition getu4 (s : string) : option (Z * string) :=
  match s with
  | String b (String u (String h1 (String h2 (String h3 (String h4 r))))) =>
      if Ascii.eqb b "\" && Ascii.eqb u "u" then
        match hex_val h1, hex_val h2, hex_val h3, hex_val h4 with
        | Some a, Some b, Some c, Some d =>
            Some (a * 4096 + b * 256 + c * 16 + d, r)
        | _, _, _, _ => None
        end
      else None
  | _ => None
  end.

Definition IsSurrogate (r : Z) : bool := (55296 <=? r) && (r <? 57344).

(** [utf16.DecodeRune]: the rune of a surrogate pair. *)
Definition utf16_DecodeRune (r1 r2 : Z) : Z :=
  if (55296 <=? r1) && (r1 <? 56320) && (56320 <=? r2) && (r2 <? 57344)
  then Z.lor (Z.shiftl (r1 - 55296) 10) (r2 - 56320) + 65536
  else utf8.RuneError.

(** The character of a one-letter escape. *)
Definition escape (c : ascii) : option ascii :=
  let b := byte_val c in
  if (b =? 34) || (b =? 92) || (b =? 47) then Some c
  else if b =? 98 then Some (byte_of 8)
  else if b =? 102 then Some (byte_of 12)
  else if b =? 110 then Some (byte_of 10)
  else if b =? 114 then Some (byte_of 13)
  else if b =? 116 then Some (byte_of 9)
  else None.

Definition prepend (t : string) (r : option (string * string)) :
  option (string * string) :=
  match r with
  | Some (u, rest) => Some (t ++ u, rest)
  | None => None
  end.

(** A string literal after its opening quote: the unquoted string and what
    follows the closing quote; [None] for a literal the scanner refuses.
    Escapes are replaced, invalid UTF-8 is coerced to U+FFFD ([unquote]).
    The first argument bounds the number of characters read; the length of
    the input is enough. *)
Fixpoint string_lit (n : nat) (s : string) : option (string * string) :=
  match n with
  | O => None
  | S n' =>
      match s with
      | EmptyString => None
      | String c r =>
          let b := byte_val c in
          if b =? 34 then Some (EmptyString, r)
          else if b =? 92 then
            match r with
            | EmptyString => None
            | String e r' =>
                if Ascii.eqb e "u" then
                  match getu4 s with
                  | None => None
                  | Some (rr, r1) =>
                      if IsSurrogate rr then
                        let dec :=
                          match getu4 r1 with
                          | Some (rr1, r2) => Some (utf16_DecodeRune rr rr1, r2)
                          | None => None
                          end in
                        match dec with
                        | Some (d, r2) =>
                            if negb (d =? utf8.RuneError)
                            then prepend (utf8.EncodeRune d) (string_lit n' r2)
                            else prepend (utf8.EncodeRune utf8.RuneError)
                                   (string_lit n' r1)
                        | None =>
                            prepend (utf8.EncodeRune utf8.RuneError)
                              (string_lit n' r1)
                        end
                      else prepend (utf8.EncodeRune rr) (string_lit n' r1)
                  end
                else
                  match escape e with
                  | Some x => prepend (String x EmptyString) (string_lit n' r')
                  | None => None
                  end
            end
          else if b <? 32 then None
          else if b <? 128 then prepend (String c EmptyString) (string_lit n' r)
          else
            let '(rr, size) := utf8.DecodeRune s in
            prepend (utf8.EncodeRune rr) (string_lit n' (drop size s))
      end
  end.

(** At least one digit. *)
Definition digits1 (s : string) : option (string * string) :=
  match digit_span s with
  | (EmptyString, _) => None
  | (d, rest) => Some (d, rest)
  end.

(** The exponent of a number, when there is one. *)
Definition exponent (s : string) : option (string * string) :=
  match s with
  | String c r =>
      if Ascii.eqb c "e" || Ascii.eqb c "E" then
        let '(sg, r1) :=
          match r with
          | String g r' =>
              if Ascii.eqb g "+" || Ascii.eqb g "-"
              then (String g EmptyString, r') else (EmptyString, r)
          | EmptyString => (EmptyString, r)
          end in
        match digits1 r1 with
        | Some (d, rest) => Some (String c (sg ++ d), rest)
        | None => None
        end
      else Some (EmptyString, s)
  | EmptyString => Some (EmptyString, s)
  end.

(** The fraction of a number, when there is one. *)
Definition fraction (s : string) : option (string * string) :=
  match s with
  | String c r =>
      if Ascii.eqb c "." then
        match digits1 r with
        | Some (d, rest) => Some (String c d, rest)
        | None => None
        end
      else Some (EmptyString, s)
  | EmptyString => Some (EmptyString, s)
  end.

(** A number literal: an optional minus, [0] or a digit from 1 to 9 and
    digits, an optional fraction, an optional exponent. *)
Definition number_lit (s : string) : option (string * string) :=
  let '(neg, s1) :=
    match s with
    | String c r =>
        if Ascii.eqb c "-" then (String c EmptyString, r) else (EmptyString, s)
    | EmptyString => (EmptyString, s)
    end in
  match s1 with
  | String c r =>
      let int_part :=
        if Ascii.eqb c "0" then Some (String c EmptyString, r)
        else if is_digit c then
          let '(d, rest) := digit_span r in Some (String c d, rest)
        else None in
      match int_part with
      | None => None
      | Some (i, s2) =>
          match fraction s2 with
          | None => None
          | Some (f, s3) =>
              match exponent s3 with
              | None => None
              | Some (e, s4) => Some (neg ++ i ++ f ++ e, s4)
              end
          end
      end
  | EmptyString => None
  end.

(** [lit_prefix w s]: what follows the word [w] at the start of [s]. *)
Fixpoint lit_prefix (w s : string) : option string :=
  match w, s with
  | EmptyString, _ => Some s
  | String a w', String b s' => if Ascii.eqb a b then lit_prefix w' s' else None
  | String _ _, EmptyString => None
  end.

(** A value at the start of [s], below [depth] open arrays and objects, and
    what follows it; [None] for a text the scanner refuses.  The first
    argument bounds the number of values and members read; twice the length
    of the input is enough. *)
Fixpoint parse_value (n : nat) (depth : nat) (s : string) {struct n} :
  option (value * string) :=
  match n with
  | O => None
  | S n' =>
      match s with
      | EmptyString => None
      | String c r =>
          let b := byte_val c in
          if b =? 123 then
            if (maxNestingDepth <=? depth)%nat then None
            else
              match skip_space r with
              | String c1 r1 =>
                  if byte_val c1 =? 125 then Some (Object [], r1)
                  else parse_members n' (S depth) (skip_space r) []
              | EmptyString => None
              end
          else if b =? 91 then
            if (maxNestingDepth <=? depth)%nat then None
            else
              match skip_space r with
              | String c1 r1 =>
                  if byte_val c1 =? 93 then Some (Array [], r1)
                  else parse_elems n' (S depth) (skip_space r) []
              | EmptyString => None
              end
          else if b =? 34 then
            match string_lit (len r) r with
            | Some (t, rest) => Some (Str t, rest)
            | None => None
            end
          else if (b =? 45) || is_digit c then
            match number_lit s with
            | Some (l, rest) => Some (Number l, rest)
            | None => None
            end
          else if b =? 116 then
            option_map (fun rest => (Bool true, rest)) (lit_prefix "true" s)
          else if b =? 102 then
            option_map (fun rest => (Bool false, rest)) (lit_prefix "false" s)
          else if b =? 110 then
            option_map (fun rest => (Null, rest)) (lit_prefix "null" s)
          else None
      end
  end

(** The members of an object from the start of a key, after the members
    [acc]. *)
with parse_members (n : nat) (depth : nat) (s : string)
       (acc : list (string * value)) {struct n} : option (value * string) :=
  match n with
  | O => None
  | S n' =>
      match s with
      | String q r =>
          if byte_val q =? 34 then
            match string_lit (len r) r with
            | None => None
            | Some (key, r1) =>
                match skip_space r1 with
                | String colon r2 =>
                    if byte_val colon =? 58 then
                      match parse_value n' depth (skip_space r2) with
                      | None => None
                      | Some (v, r3) =>
                          match skip_space r3 with
                          | String d r4 =>
                              if byte_val d =? 44
                              then parse_members n' depth (skip_space r4)
                                     (acc ++ [(key, v)])
                              else if byte_val d =? 125
                              then Some (Object (acc ++ [(key, v)]), r4)
                              else None
                          | EmptyString => None
                          end
                      end
                    else None
                | EmptyString => None
                end
            end
          else None
      | EmptyString => None
      end
  end

(** The elements of an array from the start of a value, after the elements
    [acc]. *)
with parse_elems (n : nat) (depth : nat) (s : string) (acc : list value)
       {struct n} : option (value * string) :=
  match n with
  | O => None
  | S n' =>
      match parse_value n' depth s with
      | None => None
      | Some (v, r1) =>
          match skip_space r1 with
          | String d r2 =>
              if byte_val d =? 44
              then parse_elems n' depth (skip_space r2) (acc ++ [v])
              else if byte_val d =? 93
              then Some (Array (acc ++ [v]), r2)
              else None
          | EmptyString => None
          end
      end
  end.

(** [checkValid] and the reading of the text: one value, with spaces around
    it and nothing else.  [None] is a [SyntaxError]. *)
Definition parse (data : string) : option value :=
  match parse_value (S (2 * len data)) 0 (skip_space data) with
  | Some (v, rest) =>
      match skip_space rest with
      | EmptyString => Some v
      | _ => None
      end
  | None => None
  end.


(** [foldName]: ASCII letters to upper case; the two runes outside ASCII
    that fold to an ASCII letter, U+017F to [S] and U+212A to [K].  Other
    runes outside ASCII fold to runes outside ASCII, which no field name of
    this program holds: their bytes are kept. *)
Fixpoint foldName (s : string) : string :=
  match s with
  | EmptyString => EmptyString
  | String c r =>
      let b := byte_val c in
      if b <? 128 then
        String (if (97 <=? b) && (b <=? 122) then byte_of (b - 32) else c)
          (foldName r)
      else
        match r with
        | EmptyString => String c EmptyString
        | String c1 r1 =>
            if (b =? 197) && (byte_val c1 =? 191) then String "S" (foldName r1)
            else
              match r1 with
              | EmptyString => String c (foldName r)
              | String c2 r2 =>
                  if (b =? 226) && (byte_val c1 =? 132) && (byte_val c2 =? 170)
                  then String "K" (foldName r2)
                  else String c (foldName r)
              end
        end
  end.

(** The field that a key of an object names: the one with this very name,
    else the first one equal to it under case folding. *)
Definition field (names : list string) (key : string) : option string :=
  match find (String.eqb key) names with
  | Some f => Some f
  | None => find (fun f => String.eqb (foldName f) (foldName key)) names
  end.

(** [saveError]: the first error is the one [Unmarshal] returns. *)
Definition saveError (saved : option error) (e : error) : option error :=
  match saved with
  | None => Some e
  | Some _ => saved
  end.

(** A value stored into a field of type [string]. *)
Definition store_string (v : value) (cur : string) (saved : option error) :
  string * option error :=
  match v with
  | Str s => (s, saved)
  | Null => (cur, saved)
  | Bool _ => (cur, saveError saved (UnmarshalTypeError "bool"))
  | Number _ => (cur, saveError saved (UnmarshalTypeError "number"))
  | Array _ => (cur, saveError saved (UnmarshalTypeError "array"))
  | Object _ => (cur, saveError saved (UnmarshalTypeError "object"))
  end.

Section Struct.

(** A struct type [T] with the fields [names]; [store f v] stores the
    value [v] into the field [f]. *)
Context {T : Type}.
Variable names : list string.
Variable store : string -> value -> T -> option error -> T * option error.

(** The members of an object, in their order: a key that names no field
    is skipped with its value. *)
Fixpoint members (ms : list (string * value)) (cur : T)
  (saved : option error) : T * option error :=
  match ms with
  | [] => (cur, saved)
  | (key, v) :: tl =>
      match field names key with
      | Some f =>
          let '(cur', saved') := store f v cur saved in
          members tl cur' saved'
      | None => members tl cur saved
      end
  end.

(** A value stored into a field of type [T]. *)
Definition store_struct (v : value) (cur : T) (saved : option error) :
  T * option error :=
  match v with
  | Object ms => members ms cur saved
  | Null => (cur, saved)
  | Bool _ => (cur, saveError saved (UnmarshalTypeError "bool"))
  | Number _ => (cur, saveError saved (UnmarshalTypeError "number"))
  | Str _ => (cur, saveError saved (UnmarshalTypeError "string"))
  | Array _ => (cur, saveError saved (UnmarshalTypeError "array"))
  end.

End Struct.

End json.

(** ** The event detail extractor *)

(** The struct types of [RawEventDetails]; the three inner ones have no name
    in the source and take the tag of their field. *)
Record sessionIssuer : Type := {
  Type_ : string;
  UserName : string;
  Arn : string
}.

Record sessionContext : Type := {
  SessionIssuer : sessionIssuer
}.

Record userIdentity : Type := {
  AccountId : string;
  SessionContext : sessionContext
}.

Record RawEventDetails : Type := {
  EventVersion : string;
  UserIdentity : userIdentity;
  EventRegion : string;
  EventId : string;
  ErrorCode : string
}.

(** The zero value [RawEventDetails{}]. *)
Definition zero_sessionIssuer : sessionIssuer :=
  {| Type_ := ""; UserName := ""; Arn := "" |}.
Definition zero_sessionContext : sessionContext :=
  {| SessionIssuer := zero_sessionIssuer |}.
Definition zero_userIdentity : userIdentity :=
  {| AccountId := ""; SessionContext := zero_sessionContext |}.
Definition zero : RawEventDetails :=
  {| EventVersion := ""; UserIdentity := zero_userIdentity;
     EventRegion := ""; EventId := ""; ErrorCode := "" |}.

(** The decoding that the tags of the struct direct. *)
Definition store_sessionIssuer (f : string) (v : json.value)
  (cur : sessionIssuer) (saved : option error) : sessionIssuer * option error :=
  if String.eqb f "type" then
    let '(x, e) := json.store_string v (Type_ cur) saved in
    ({| Type_ := x; UserName := UserName cur; Arn := Arn cur |}, e)
  else if String.eqb f "userName" then
    let '(x, e) := json.store_string v (UserName cur) saved in
    ({| Type_ := Type_ cur; UserName := x; Arn := Arn cur |}, e)
  else if String.eqb f "arn" then
    let '(x, e) := json.store_string v (Arn cur) saved in
    ({| Type_ := Type_ cur; UserName := UserName cur; Arn := x |}, e)
  else (cur, saved).

Definition names_sessionIssuer : list string := ["type"; "userName"; "arn"].

Definition store_sessionContext (f : string) (v : json.value)
  (cur : sessionContext) (saved : option error) : sessionContext * option error :=
  if String.eqb f "sessionIssuer" then
    let '(x, e) :=
      json.store_struct names_sessionIssuer store_sessionIssuer v
        (SessionIssuer cur) saved in
    ({| SessionIssuer := x |}, e)
  else (cur, saved).

Definition names_sessionContext : list string := ["sessionIssuer"].

Definition store_userIdentity (f : string) (v : json.value)
  (cur : userIdentity) (saved : option error) : userIdentity * option error :=
  if String.eqb f "accountId" then
    let '(x, e) := json.store_string v (AccountId cur) saved in
    ({| AccountId := x; SessionContext := SessionContext cur |}, e)
  else if String.eqb f "sessionContext" then
    let '(x, e) :=
      json.store_struct names_sessionContext store_sessionContext v
        (SessionContext cur) saved in
    ({| AccountId := AccountId cur; SessionContext := x |}, e)
  else (cur, saved).

Definition names_userIdentity : list string := ["accountId"; "sessionContext"].

Definition store_RawEventDetails (f : string) (v : json.value)
  (cur : RawEventDetails) (saved : option error) :
  RawEventDetails * option error :=
  if String.eqb f "eventVersion" then
    let '(x, e) := json.store_string v (EventVersion cur) saved in
    ({| EventVersion := x; UserIdentity := UserIdentity cur;
        EventRegion := EventRegion cur; EventId := EventId cur;
        ErrorCode := ErrorCode cur |}, e)
  else if String.eqb f "userIdentity" then
    let '(x, e) :=
      json.store_struct names_userIdentity store_userIdentity v
        (UserIdentity cur) saved in
    ({| EventVersion := EventVersion cur; UserIdentity := x;
        EventRegion := EventRegion cur; EventId := EventId cur;
        ErrorCode := ErrorCode cur |}, e)
  else if String.eqb f "awsRegion" then
    let '(x, e) := json.store_string v (EventRegion cur) saved in
    ({| EventVersion := EventVersion cur; UserIdentity := UserIdentity cur;
        EventRegion := x; EventId := EventId cur;
        ErrorCode := ErrorCode cur |}, e)
  else if String.eqb f "eventID" then
    let '(x, e) := json.store_string v (EventId cur) saved in
    ({| EventVersion := EventVersion cur; UserIdentity := UserIdentity cur;
        EventRegion := EventRegion cur; EventId := x;
        ErrorCode := ErrorCode cur |}, e)
  else if String.eqb f "errorCode" then
    let '(x, e) := json.store_string v (ErrorCode cur) saved in
    ({| EventVersion := EventVersion cur; UserIdentity := UserIdentity cur;
        EventRegion := EventRegion cur; EventId := EventId cur;
        ErrorCode := x |}, e)
  else (cur, saved).

Definition names_RawEventDetails : list string :=
  ["eventVersion"; "userIdentity"; "awsRegion"; "eventID"; "errorCode"].

(** [json.Unmarshal data &res]: the value of [res] after the call, and the
    error. *)
Definition Unmarshal (data : string) (res : RawEventDetails) :
  RawEventDetails * option error :=
  match json.parse data with
  | None => (res, Some SyntaxError)
  | Some v =>
      json.store_struct names_RawEventDetails store_RawEventDetails v res None
  end.

Definition supportedEventVersionMajor : Z := 1.
Definition minSupportedEventVersionMinor : Z := 8.

(** The four errors of [ExtractUserDetails].  [fmt.Errorf] with [%w] gives an
    error that wraps its operand: [wrapError] keeps the text before it. *)
Definition InvalidInput : error := errorString "cannot parse a nil input".

Definition DecodeError (err : error) : error :=
  wrapError "could not marshal event.CloudTrailEvent: " err.

Definition VersionParseError (err : error) : error :=
  wrapError "failed to parse CloudTrail event version: " err.

Definition UnsupportedVersion (got : string) : error :=
  errorString ("unexpected event version (got " ++ got
               ++ ", expected compatibility with 1.8)").

(** [ExtractUserDetails cloudTrailEvent]: the pointer and the error it
    returns. *)
Definition ExtractUserDetails (cloudTrailEvent : option string) :
  Go (option RawEventDetails * option error) :=
  invalid <- match cloudTrailEvent with
             | None => Ret true
             | Some _ => s <- deref cloudTrailEvent ;; Ret (String.eqb s "")
             end ;;
  if (invalid : bool) then Ret (Some zero, Some InvalidInput)
  else
    data <- deref cloudTrailEvent ;;
    let '(res, err) := Unmarshal data zero in
    match err with
    | Some e => Ret (Some zero, Some (DecodeError e))
    | None =>
        let '(responseMajor, responseMinor, err) :=
          fmt.Sscanf (EventVersion res) 0 0 in
        match err with
        | Some e => Ret (Some zero, Some (VersionParseError e))
        | None =>
            if negb (responseMajor =? supportedEventVersionMajor)
               || (responseMinor <? minSupportedEventVersionMinor)
            then Ret (Some zero, Some (UnsupportedVersion (EventVersion res)))
            else Ret (Some res, None)
        end
    end.

(** ** The AWS SDK: the CloudTrail client and its paginator *)

Module types.

(** An event record, opaque to the paginator; the fields that
    [ExtractUserDetails] and the callers read. *)
Record Event : Type := {
  CloudTrailEvent : option string;
  EventId : option string;
  EventName : option string;
  Username : option string
}.

Record LookupAttribute : Type := {
  AttributeKey : string;
  AttributeValue : option string
}.

End types.

Module cloudtrail.

(** Instants of [time.Time] are integers. *)
Record LookupEventsInput : Type := {
  EndTime : option Z;
  LookupAttributes : list types.LookupAttribute;
  MaxResults : option Z;
  NextToken : option string;
  StartTime : option Z
}.

Record LookupEventsOutput : Type := {
  Events : list types.Event;
  OutNextToken : option string
}.

(** The remote collaborator.  A client of type [Client] is made from a
    configuration, for a region or for the region of the configuration, and
    answers a query with a page or with an error; the state of the service
    after the query is the new client. *)
Class Service (Config Client : Type) : Type := {
  New : string -> Config -> Client;
  NewFromConfig : Config -> Client;
  LookupEvents :
    LookupEventsInput -> Client -> (LookupEventsOutput + error) * Client
}.

Record LookupEventsPaginatorOptions : Type := {
  Limit : Z;
  StopOnDuplicateToken : bool
}.

Record LookupEventsPaginator (Client : Type) : Type := {
  options : LookupEventsPaginatorOptions;
  client : Client;
  params : LookupEventsInput;
  nextToken : option string;
  firstPage : bool
}.
Arguments options {Client} _.
Arguments client {Client} _.
Arguments params {Client} _.
Arguments nextToken {Client} _.
Arguments firstPage {Client} _.

Definition NewLookupEventsPaginator {Client : Type} (c : Client)
  (input : LookupEventsInput)
  (optFn : LookupEventsPaginatorOptions -> LookupEventsPaginatorOptions) :
  LookupEventsPaginator Client :=
  let opts :=
    {| Limit := match MaxResults input with Some m => m | None => 0 end;
       StopOnDuplicateToken := false |} in
  {| options := optFn opts;
     client := c;
     params := input;
     nextToken := NextToken input;
     firstPage := true |}.

Definition nonempty (t : option string) : bool :=
  match t with
  | Some x => negb (len x =? 0)%nat
  | None => false
  end.

Definition HasMorePages {Client : Type} (p : LookupEventsPaginator Client) :
  bool :=
  firstPage p || nonempty (nextToken p).

Definition same_token (a b : option string) : bool :=
  match a, b with
  | Some x, Some y => String.eqb x y
  | _, _ => false
  end.

(** [NextPage]: the output, nil on an error; the error; the paginator after
    the call.  A page that fails leaves the cursor where it was. *)
Definition NextPage {Config Client : Type} `{Service Config Client}
  (p : LookupEventsPaginator Client) :
  option LookupEventsOutput * option error * LookupEventsPaginator Client :=
  if negb (HasMorePages p)
  then (None, Some (errorString "no more pages available"), p)
  else
    let query :=
      {| EndTime := EndTime (params p);
         LookupAttributes := LookupAttributes (params p);
         MaxResults :=
           if 0 <? Limit (options p) then Some (Limit (options p)) else None;
         NextToken := nextToken p;
         StartTime := StartTime (params p) |} in
    match LookupEvents query (client p) with
    | (inr err, c) =>
        (None, Some err,
         {| options := options p; client := c; params := params p;
            nextToken := nextToken p; firstPage := firstPage p |})
    | (inl result, c) =>
        let prevToken := nextToken p in
        let next := OutNextToken result in
        let next :=
          if StopOnDuplicateToken (options p) && same_token prevToken next
          then None else next in
        (Some result, None,
         {| options := options p; client := c; params := params p;
            nextToken := next; firstPage := false |})
    end.

End cloudtrail.

(** ** The event paginator *)

Local Open Scope list_scope.

(** Modelled from the spec: the type [Period], declared outside the files at
    hand, is the time window (start, end) of the query; [GetEvents] reads its
    fields [StartTime] and [EndTime]. *)
Record Period : Type := {
  StartTime : Z;
  EndTime : Z
}.

Record EventResult : Type := {
  AWSEvent : list types.Event;
  errors : option error
}.

Record EventAPI (Client : Type) : Type := {
  client : Client;
  writeOnly : bool
}.
Arguments client {Client} _.
Arguments writeOnly {Client} _.

Definition NewEventAPI {Config Client : Type} `{cloudtrail.Service Config Client}
  (cfg : Config) (writeOnly : bool) (region : string) : EventAPI Client :=
  let c :=
    if negb (String.eqb region "") then cloudtrail.New region cfg
    else cloudtrail.NewFromConfig cfg in
  {| client := c; writeOnly := writeOnly |}.

(** What happens on the channel [pageChan], in order.  The channel has no
    buffer: a send returns when the consumer has received, so that a consumer
    that receives until the channel is closed sees the sends of the producer
    in their order, then the closure. *)
Inductive chan_op : Type :=
| send (r : EventResult)
| close.

(** Where the producer goroutine stands: still in its loop, returned, or
    stopped by a panic (which ends the process, after the deferred calls). *)
Inductive status : Type :=
| Running
| Returned
| Panicked (msg : string).

Record goroutine (Client : Type) : Type := {
  pageChan : list chan_op;
  state : status;
  paginator : cloudtrail.LookupEventsPaginator Client;
  alllookupEvents : list types.Event
}.
Arguments pageChan {Client} _.
Arguments state {Client} _.
Arguments paginator {Client} _.
Arguments alllookupEvents {Client} _.

(** The query that [GetEvents] builds. *)
Definition input (writeOnly : bool) (missing : Period) :
  cloudtrail.LookupEventsInput :=
  {| cloudtrail.EndTime := Some (EndTime missing);
     cloudtrail.LookupAttributes :=
       if writeOnly
       then [ {| types.AttributeKey := "ReadOnly";
                 types.AttributeValue := Some "false" |} ]
       else [];
     cloudtrail.MaxResults := None;
     cloudtrail.NextToken := None;
     cloudtrail.StartTime := Some (StartTime missing) |}.

(** The loop [for paginator.HasMorePages() { ... }] of the goroutine, for at
    most [fuel] turns. *)
Fixpoint loop {Config Client : Type} `{cloudtrail.Service Config Client}
  (fuel : nat) (paginator : cloudtrail.LookupEventsPaginator Client)
  (alllookupEvents : list types.Event) (pageChan : list chan_op) :
  goroutine Client :=
  match fuel with
  | O => {| pageChan := pageChan; state := Running; paginator := paginator;
            alllookupEvents := alllookupEvents |}
  | S fuel' =>
      if cloudtrail.HasMorePages paginator then
        let '(lookupOutput, err, paginator) := cloudtrail.NextPage paginator in
        let pageChan :=
          match err with
          | Some e => pageChan ++ [send {| AWSEvent := []; errors := Some e |}]
          | None => pageChan
          end in
        match deref lookupOutput with
        | Panic msg =>
            {| pageChan := pageChan; state := Panicked msg;
               paginator := paginator; alllookupEvents := alllookupEvents |}
        | Ret out =>
            let alllookupEvents := alllookupEvents ++ cloudtrail.Events out in
            let pageChan :=
              pageChan
              ++ [send {| AWSEvent := cloudtrail.Events out; errors := None |}] in
            loop fuel' paginator alllookupEvents pageChan
        end
      else {| pageChan := pageChan; state := Returned; paginator := paginator;
              alllookupEvents := alllookupEvents |}
  end.

(** [defer close(pageChan)]: the channel is closed when the goroutine returns
    and when it panics. *)
Definition defer_close {Client : Type} (g : goroutine Client) : goroutine Client :=
  match state g with
  | Running => g
  | _ => {| pageChan := pageChan g ++ [close]; state := state g;
            paginator := paginator g; alllookupEvents := alllookupEvents g |}
  end.

(** [a.GetEvents(_, missing)]: the goroutine that feeds the channel returned,
    after at most [fuel] turns of its loop. *)
Definition GetEvents {Config Client : Type} `{cloudtrail.Service Config Client}
  (a : EventAPI Client) (_ : string) (missing : Period) (fuel : nat) :
  goroutine Client :=
  let alllookupEvents : list types.Event := [] in
  let pageChan : list chan_op := [] in
  let input := input (writeOnly a) missing in
  let paginator :=
    cloudtrail.NewLookupEventsPaginator (client a) input (fun c => c) in
  defer_close (loop fuel paginator alllookupEvents pageChan).

(** What the consumer has received, and whether it has seen the closure. *)
Definition received (ops : list chan_op) : list EventResult :=
  flat_map (fun o => match o with send r => [r] | close => [] end) ops.

Definition closed (ops : list chan_op) : bool :=
  existsb (fun o => match o with close => true | send _ => false end) ops.

(** *** A scripted service

    A remote collaborator for the scenarios: it answers the queries with the
    pages and errors of a script, in order, and keeps the queries it
    received.  Past the end of the script it answers with an error. *)
Record scripted : Type := {
  script : list (cloudtrail.LookupEventsOutput + error);
  queries : list cloudtrail.LookupEventsInput
}.

Definition script_exhausted : error := errorString "connection refused".

#[export] Instance scripted_service :
  cloudtrail.Service (list (cloudtrail.LookupEventsOutput + error)) scripted := {
  cloudtrail.New := fun _ cfg => {| script := cfg; queries := [] |};
  cloudtrail.NewFromConfig := fun cfg => {| script := cfg; queries := [] |};
  cloudtrail.LookupEvents := fun q c =>
    match script c with
    | r :: tl => (r, {| script := tl; queries := queries c ++ [q] |})
    | [] => (inr script_exhausted, {| script := []; queries := queries c ++ [q] |})
    end
}.

Definition page (events : list types.Event) (next : option string) :
  cloudtrail.LookupEventsOutput + error :=
  inl {| cloudtrail.Events := events; cloudtrail.OutNextToken := next |}.


(** ** The words of the specification *)

(** What a call of [ExtractUserDetails] does, in the words of the error
    taxonomy. *)
Definition succeeds_with (r : Go (option RawEventDetails * option error))
  (d : RawEventDetails) : Prop :=
  r = Ret (Some d, None).

Definition fails_with_VersionParseError
  (r : Go (option RawEventDetails * option error)) : Prop :=
  exists d e, r = Ret (d, Some (VersionParseError e)).

Definition fails_with_UnsupportedVersion
  (r : Go (option RawEventDetails * option error)) : Prop :=
  exists d got, r = Ret (d, Some (UnsupportedVersion got)).

(** The call returns: it does not panic. *)
Definition returns {A : Type} (r : Go A) : Prop :=
  exists a, r = Ret a.

(** *** The fields of a payload

    Follows the specification's words: the payload is an object; the field of
    a name is the member with this key, and a string field that is absent is
    the empty string. *)
Fixpoint member (key : string) (ms : list (string * json.value)) :
  option json.value :=
  match ms with
  | [] => None
  | (k, v) :: tl => if String.eqb k key then Some v else member key tl
  end.

Definition members_of (v : option json.value) : list (string * json.value) :=
  match v with
  | Some (json.Object ms) => ms
  | _ => []
  end.

Definition string_of (v : option json.value) : string :=
  match v with
  | Some (json.Str s) => s
  | _ => ""
  end.

Definition payload_details (v : json.value) : RawEventDetails :=
  let top := members_of (Some v) in
  let identity := members_of (member "userIdentity" top) in
  let context := members_of (member "sessionContext" identity) in
  let issuer := members_of (member "sessionIssuer" context) in
  {| EventVersion := string_of (member "eventVersion" top);
     UserIdentity :=
       {| AccountId := string_of (member "accountId" identity);
          SessionContext :=
            {| SessionIssuer :=
                 {| Type_ := string_of (member "type" issuer);
                    UserName := string_of (member "userName" issuer);
                    Arn := string_of (member "arn" issuer) |} |} |};
     EventRegion := string_of (member "awsRegion" top);
     EventId := string_of (member "eventID" top);
     ErrorCode := string_of (member "errorCode" top) |}.

(** *** The expected shape

    An object has the shape of a struct when each key that the decoder takes
    for a field is the name of this field, written as in the format, no field
    comes twice, and the value of each field has the kind of the field. *)
Section Shape.

Variable names : list string.
Variable kind : string -> json.value -> bool.

Fixpoint shaped_members (ms : list (string * json.value)) : bool :=
  match ms with
  | [] => true
  | (k, v) :: tl =>
      match json.field names k with
      | Some f =>
          String.eqb k f && kind f v
          && negb (existsb (fun m => String.eqb (fst m) f) tl)
      | None => true
      end
      && shaped_members tl
  end.

Definition shaped (v : json.value) : bool :=
  match v with
  | json.Object ms => shaped_members ms
  | _ => false
  end.

End Shape.

Definition is_string (v : json.value) : bool :=
  match v with
  | json.Str _ => true
  | _ => false
  end.

Definition kind_sessionIssuer (f : string) (v : json.value) : bool :=
  is_string v.

Definition kind_sessionContext (f : string) (v : json.value) : bool :=
  shaped names_sessionIssuer kind_sessionIssuer v.

Definition kind_userIdentity (f : string) (v : json.value) : bool :=
  if String.eqb f "sessionContext"
  then shaped names_sessionContext kind_sessionContext v
  else is_string v.

Definition kind_RawEventDetails (f : string) (v : json.value) : bool :=
  if String.eqb f "userIdentity"
  then shaped names_userIdentity kind_userIdentity v
  else is_string v.

Definition expected_shape (v : json.value) : bool :=
  shaped names_RawEventDetails kind_RawEventDetails v.

(** *** The members of an object over a value

    What the members [ms] make of a struct [cur] when each field is read at
    the member of its name: the fields without a member keep their value. *)
Definition over_string (o : option json.value) (cur : string) : string :=
  match o with
  | Some (json.Str s) => s
  | _ => cur
  end.

Definition over_sessionIssuer (ms : list (string * json.value))
  (cur : sessionIssuer) : sessionIssuer :=
  {| Type_ := over_string (member "type" ms) (Type_ cur);
     UserName := over_string (member "userName" ms) (UserName cur);
     Arn := over_string (member "arn" ms) (Arn cur) |}.

Definition over_sessionContext (ms : list (string * json.value))
  (cur : sessionContext) : sessionContext :=
  {| SessionIssuer :=
       match member "sessionIssuer" ms with
       | Some (json.Object ms') => over_sessionIssuer ms' (SessionIssuer cur)
       | _ => SessionIssuer cur
       end |}.

Definition over_userIdentity (ms : list (string * json.value))
  (cur : userIdentity) : userIdentity :=
  {| AccountId := over_string (member "accountId" ms) (AccountId cur);
     SessionContext :=
       match member "sessionContext" ms with
       | Some (json.Object ms') => over_sessionContext ms' (SessionContext cur)
       | _ => SessionContext cur
       end |}.

Definition over_RawEventDetails (ms : list (string * json.value))
  (cur : RawEventDetails) : RawEventDetails :=
  {| EventVersion := over_string (member "eventVersion" ms) (EventVersion cur);
     UserIdentity :=
       match member "userIdentity" ms with
       | Some (json.Object ms') => over_userIdentity ms' (UserIdentity cur)
       | _ => UserIdentity cur
       end;
     EventRegion := over_string (member "awsRegion" ms) (EventRegion cur);
     EventId := over_string (member "eventID" ms) (EventId cur);
     ErrorCode := over_string (member "errorCode" ms) (ErrorCode cur) |}.

(** *** The form of a version

    Follows the specification's words, [<integer>.<integer>], that is
    [^\d+\.\d+]: digits, a dot, a digit. *)
Definition version_form (s : string) : bool :=
  match digit_span s with
  | (String _ _, String dot (String d _)) => Ascii.eqb dot "." && is_digit d
  | _ => false
  end.

(** The components of a version.  Follows the specification's words: a
    version is [MAJOR.MINOR], digits, a dot and digits; its components are
    the numbers that the digits write in base ten. *)
Fixpoint decimal_from (n : Z) (s : string) : Z :=
  match s with
  | EmptyString => n
  | String c r => decimal_from (n * 10 + (byte_val c - 48)) r
  end.

Definition decimal (s : string) : Z := decimal_from 0 s.

Definition version_components (s : string) : option (Z * Z) :=
  match digit_span s with
  | (String _ _ as a, String dot r) =>
      if Ascii.eqb dot "." then
        match digit_span r with
        | (String _ _ as b, EmptyString) => Some (decimal a, decimal b)
        | _ => None
        end
      else None
  | _ => None
  end.

(** The largest [int]. *)
Definition MaxInt : Z := 2 ^ 63 - 1.

(** The form that the scan of [%d.%d] asks for: before each of the two
    numbers, white space without a newline and a sign may come. *)
Definition blank (r : Z) : bool := fmt.isSpace r && negb (r =? 10).

Fixpoint skip_blanks (n : nat) (s : string) : string :=
  match n with
  | O => s
  | S n' =>
      match s with
      | EmptyString => s
      | _ =>
          let '(r, size) := utf8.DecodeRune s in
          if blank r then skip_blanks n' (drop size s) else s
      end
  end.

Definition skip_sign (s : string) : string :=
  match s with
  | String c r => if Ascii.eqb c "+" || Ascii.eqb c "-" then r else s
  | EmptyString => s
  end.

(** What follows a number: a sign, if any, and digits. *)
Definition after_number (s : string) : option string :=
  match digit_span (skip_sign s) with
  | (String _ _, rest) => Some rest
  | (EmptyString, _) => None
  end.

Definition scanned_form (s : string) : bool :=
  match after_number (skip_blanks (len s) s) with
  | Some (String dot r) =>
      Ascii.eqb dot "."
      && match after_number (skip_blanks (len r) r) with
         | Some _ => true
         | None => false
         end
  | _ => false
  end.

(** *** Scenarios *)

Definition event (id : string) : types.Event :=
  {| types.CloudTrailEvent := None; types.EventId := Some id;
     types.EventName := None; types.Username := None |}.



(** The record sequences among the results without an error. *)
Definition records (rs : list EventResult) : list (list types.Event) :=
  flat_map (fun r => match errors r with
                     | None => [AWSEvent r]
                     | Some _ => []
                     end) rs.

Definition payload_1_9 : string :=
  json_text "{'eventVersion':'1.9','userIdentity':{'accountId':'123456789012'},'awsRegion':'us-east-1','eventID':'evt-1','errorCode':''}".

(** The outputs among the answers of a service. *)
Definition outputs (answers : list (cloudtrail.LookupEventsOutput + error)) :
  list cloudtrail.LookupEventsOutput :=
  flat_map (fun a => match a with
                     | inl out => [out]
                     | inr _ => []
                     end) answers.

(** ** pkg/utils/network.go: the route table of a subnet *)

(** The EC2 types of the SDK, with the fields that the code reads. *)
Module ec2.

Record Filter : Type := {
  Name : option string;
  Values : list string
}.

Record DescribeRouteTablesInput : Type := {
  Filters : list Filter
}.

Record RouteTableAssociation : Type := {
  Main : option bool;
  SubnetId : option string
}.

Record RouteTable : Type := {
  Associations : list RouteTableAssociation;
  RouteTableId : option string
}.

Record DescribeRouteTablesOutput : Type := {
  RouteTables : list RouteTable
}.

Record DescribeSubnetsInput : Type := {
  SubnetIds : list string
}.

Record Subnet : Type := {
  VpcId : option string
}.

Record DescribeSubnetsOutput : Type := {
  Subnets : list Subnet
}.

End ec2.

Module network.

(** The two calls that the code makes on a client ([aws.Client], and
    [verificationAWSClient], whose calls take a context besides): each returns
    an output, nil or not, and an error.  The calls of one run have different
    inputs, so that a function of the input can give any answers to them. *)
Class Client (C : Type) : Type := {
  DescribeRouteTables :
    C -> ec2.DescribeRouteTablesInput ->
    option ec2.DescribeRouteTablesOutput * option error;
  DescribeSubnets :
    C -> ec2.DescribeSubnetsInput ->
    option ec2.DescribeSubnetsOutput * option error
}.

(** [for _, assoc := range rt.Associations { if *assoc.Main { return ... } }]:
    whether the loop meets a main association. *)
Fixpoint range_associations (assocs : list ec2.RouteTableAssociation) : Go bool :=
  match assocs with
  | [] => Ret false
  | assoc :: tl =>
      main <- deref (ec2.Main assoc) ;;
      if (main : bool) then Ret true else range_associations tl
  end.

(** [for _, rt := range describeRouteTablesOutput.RouteTables { ... }]: the
    identifier that the loops return, if they return. *)
Fixpoint range_route_tables (rts : list ec2.RouteTable) : Go (option string) :=
  match rts with
  | [] => Ret None
  | rt :: tl =>
      found <- range_associations (ec2.Associations rt) ;;
      if (found : bool)
      then id <- deref (ec2.RouteTableId rt) ;; Ret (Some id)
      else range_route_tables tl
  end.

Definition findDefaultRouteTableForVPC {C : Type} `{Client C} (awsClient : C)
  (vpcID : string) : Go (string * option error) :=
  let '(describeRouteTablesOutput, err) :=
    DescribeRouteTables awsClient
      {| ec2.Filters :=
           [ {| ec2.Name := Some "vpc-id"; ec2.Values := [vpcID] |} ] |} in
  match err with
  | Some e =>
      Ret (EmptyString,
           Some (wrapError
                   ("failed to describe route tables associated with vpc "
                    ++ vpcID ++ ": ")%string e))
  | None =>
      out <- deref describeRouteTablesOutput ;;
      found <- range_route_tables (ec2.RouteTables out) ;;
      match found with
      | Some id => Ret (id, None)
      | None =>
          Ret (EmptyString,
               Some (errorString
                       ("no default route table found for vpc: " ++ vpcID)%string))
      end
  end.

Definition FindRouteTableForSubnet {C : Type} `{Client C} (awsClient : C)
  (subnetID : string) : Go (string * option error) :=
  let '(describeRouteTablesOutput, err) :=
    DescribeRouteTables awsClient
      {| ec2.Filters :=
           [ {| ec2.Name := Some "association.subnet-id";
                ec2.Values := [subnetID] |} ] |} in
  match err with
  | Some e =>
      Ret (EmptyString,
           Some (wrapError
                   ("failed to describe route tables associated to subnet "
                    ++ subnetID ++ ": ")%string e))
  | None =>
      out <- deref describeRouteTablesOutput ;;
      match ec2.RouteTables out with
      | [] =>
          let '(describeSubnetOutput, err) :=
            DescribeSubnets awsClient {| ec2.SubnetIds := [subnetID] |} in
          match err with
          | Some e => Ret (EmptyString, Some e)
          | None =>
              sout <- deref describeSubnetOutput ;;
              match ec2.Subnets sout with
              | [] =>
                  Ret (EmptyString,
                       Some (errorString
                               ("no subnets returned for subnet id "
                                ++ subnetID)%string))
              | subnet :: _ =>
                  vpcID <- deref (ec2.VpcId subnet) ;;
                  r <- findDefaultRouteTableForVPC awsClient vpcID ;;
                  let '(routeTable, err) := r in
                  match err with
                  | Some e => Ret (EmptyString, Some e)
                  | None => Ret (routeTable, None)
                  end
              end
          end
      | rt :: _ =>
          routeTable <- deref (ec2.RouteTableId rt) ;;
          Ret (routeTable, None)
      end
  end.

Definition findDefaultRouteTableForVPCForVerification {C : Type} `{Client C}
  (awsClient : C) (vpcID : string) : Go (string * option error) :=
  let '(describeRouteTablesOutput, err) :=
    DescribeRouteTables awsClient
      {| ec2.Filters :=
           [ {| ec2.Name := Some "vpc-id"; ec2.Values := [vpcID] |} ] |} in
  match err with
  | Some e =>
      Ret (EmptyString,
           Some (wrapError
                   ("failed to describe route tables associated with vpc "
                    ++ vpcID ++ ": ")%string e))
  | None =>
      out <- deref describeRouteTablesOutput ;;
      found <- range_route_tables (ec2.RouteTables out) ;;
      match found with
      | Some id => Ret (id, None)
      | None =>
          Ret (EmptyString,
               Some (errorString
                       ("no default route table found for vpc: " ++ vpcID)%string))
      end
  end.

Definition FindRouteTableForSubnetForVerification {C : Type} `{Client C}
  (verificationAwsClient : C) (subnetID : string) : Go (string * option error) :=
  let '(describeRouteTablesOutput, err) :=
    DescribeRouteTables verificationAwsClient
      {| ec2.Filters :=
           [ {| ec2.Name := Some "association.subnet-id";
                ec2.Values := [subnetID] |} ] |} in
  match err with
  | Some e =>
      Ret (EmptyString,
           Some (wrapError
                   ("failed to describe route tables associated to subnet "
                    ++ subnetID ++ ": ")%string e))
  | None =>
      out <- deref describeRouteTablesOutput ;;
      match ec2.RouteTables out with
      | [] =>
          let '(describeSubnetOutput, err) :=
            DescribeSubnets verificationAwsClient
              {| ec2.SubnetIds := [subnetID] |} in
          match err with
          | Some e => Ret (EmptyString, Some e)
          | None =>
              sout <- deref describeSubnetOutput ;;
              match ec2.Subnets sout with
              | [] =>
                  Ret (EmptyString,
                       Some (errorString
                               ("no subnets returned for subnet id "
                                ++ subnetID)%string))
              | subnet :: _ =>
                  vpcID <- deref (ec2.VpcId subnet) ;;
                  r <- findDefaultRouteTableForVPCForVerification
                         verificationAwsClient vpcID ;;
                  let '(routeTable, err) := r in
                  match err with
                  | Some e => Ret (EmptyString, Some e)
                  | None => Ret (routeTable, None)
                  end
              end
          end
      | rt :: _ =>
          routeTable <- deref (ec2.RouteTableId rt) ;;
          Ret (routeTable, None)
      end
  end.

(** A client given by its answers. *)
Record answers : Type := {
  route_tables :
    ec2.DescribeRouteTablesInput ->
    option ec2.DescribeRouteTablesOutput * option error;
  subnets :
    ec2.DescribeSubnetsInput -> option ec2.DescribeSubnetsOutput * option error
}.

#[global] Instance answers_client : Client answers := {
  DescribeRouteTables := route_tables;
  DescribeSubnets := subnets
}.

(** The queries of the code. *)
Definition by_subnet (subnetID : string) : ec2.DescribeRouteTablesInput :=
  {| ec2.Filters :=
       [ {| ec2.Name := Some "association.subnet-id";
            ec2.Values := [subnetID] |} ] |}.

Definition by_vpc (vpcID : string) : ec2.DescribeRouteTablesInput :=
  {| ec2.Filters := [ {| ec2.Name := Some "vpc-id"; ec2.Values := [vpcID] |} ] |}.

(** A route table is the main one of its VPC when one of its associations
    is main. *)
Definition is_main (assoc : ec2.RouteTableAssociation) : bool :=
  match ec2.Main assoc with
  | Some true => true
  | _ => false
  end.

Definition has_main (rt : ec2.RouteTable) : bool :=
  existsb is_main (ec2.Associations rt).

(** The pointers that the loops dereference are set. *)
Definition all_set (rts : list ec2.RouteTable) : Prop :=
  Forall (fun rt =>
            ec2.RouteTableId rt <> None
            /\ Forall (fun assoc => ec2.Main assoc <> None) (ec2.Associations rt))
    rts.

Definition id_of (rt : ec2.RouteTable) : string :=
  match ec2.RouteTableId rt with
  | Some id => id
  | None => EmptyString
  end.

End network.

(** The answers of a client are well-formed when an answer without an error
    has an output and the pointers that the code dereferences are set. *)
Definition well_formed_answers {C : Type} `{network.Client C} (awsClient : C) :
  Prop :=
  (forall q,
      match network.DescribeRouteTables awsClient q with
      | (Some out, None) => network.all_set (ec2.RouteTables out)
      | (None, None) => False
      | (_, Some _) => True
      end)
  /\ (forall q,
         match network.DescribeSubnets awsClient q with
         | (Some out, None) =>
             Forall (fun sn => ec2.VpcId sn <> None) (ec2.Subnets out)
         | (None, None) => False
         | (_, Some _) => True
         end).

(** A VPC with two route tables, the second one main, and a subnet without
    an association of its own. *)
Definition example_vpc : network.answers :=
  {| network.route_tables := fun q =>
       match ec2.Filters q with
       | [f] =>
           match ec2.Name f with
           | Some n =>
               if String.eqb n "vpc-id" then
                 (Some {| ec2.RouteTables :=
                            [ {| ec2.Associations :=
                                   [ {| ec2.Main := Some false;
                                        ec2.SubnetId := Some "subnet-b" |} ];
                                 ec2.RouteTableId := Some "rtb-custom" |};
                              {| ec2.Associations :=
                                   [ {| ec2.Main := Some true;
                                        ec2.SubnetId := None |} ];
                                 ec2.RouteTableId := Some "rtb-main" |} ] |},
                  None)
               else
                 match ec2.Values f with
                 | [s] =>
                     if String.eqb s "subnet-b" then
                       (Some {| ec2.RouteTables :=
                                  [ {| ec2.Associations :=
                                         [ {| ec2.Main := Some false;
                                              ec2.SubnetId := Some "subnet-b" |} ];
                                       ec2.RouteTableId := Some "rtb-custom" |} ] |},
                        None)
                     else (Some {| ec2.RouteTables := [] |}, None)
                 | _ => (Some {| ec2.RouteTables := [] |}, None)
                 end
           | None => (Some {| ec2.RouteTables := [] |}, None)
           end
       | _ => (Some {| ec2.RouteTables := [] |}, None)
       end;
     network.subnets := fun q =>
       match ec2.SubnetIds q with
       | [s] =>
           if String.eqb s "subnet-gone"
           then (Some {| ec2.Subnets := [] |}, None)
           else (Some {| ec2.Subnets := [ {| ec2.VpcId := Some "vpc-1" |} ] |},
                 None)
       | _ => (None, Some (errorString "InvalidParameter"))
       end |}.

(** Answers that do not depend on the query: one main route table and one
    subnet. *)
Definition example_flat : network.answers :=
  {| network.route_tables := fun _ =>
       (Some {| ec2.RouteTables :=
                  [ {| ec2.Associations :=
                         [ {| ec2.Main := Some true; ec2.SubnetId := None |} ];
                       ec2.RouteTableId := Some "rtb-main" |} ] |},
        None);
     network.subnets := fun _ =>
       (Some {| ec2.Subnets := [ {| ec2.VpcId := Some "vpc-1" |} ] |}, None) |}.

(** ** cmd/cluster/cad/run.go: the options of a manual investigation *)

Module cad.

Definition cadClusterIDProd : string := "2fbi9mjhqpobh20ot5d7e5eeq3a8gfhs".
Definition cadClusterIDStage : string := "2f9ghpikkv446iidcv7b92em2hgk13q9".
Definition cadNamespaceProd : string :=
  "configuration-anomaly-detection-production".
Definition cadNamespaceStage : string :=
  "configuration-anomaly-detection-stage".

Definition validInvestigations : list string :=
  [ "chgm"; "cmbb"; "can-not-retrieve-updates"; "ai"; "cpd"; "etcd-quota-low";
    "insightsoperatordown"; "machine-health-check"; "must-gather";
    "upgrade-config" ].

Definition validEnvironments : list string := [ "stage"; "production" ].

Record cadRunOptions : Type := {
  clusterID : string;
  investigation : string;
  elevationReason : string;
  environment : string;
  isDryRun : bool
}.

(** [slices.Contains]. *)
Definition Contains (s : list string) (v : string) : bool :=
  existsb (fun x => String.eqb v x) s.

(** The verb [%v] on a slice of strings: the strings between brackets, with
    a space between two of them. *)
Fixpoint join (sep : string) (l : list string) : string :=
  match l with
  | [] => EmptyString
  | [x] => x
  | x :: tl => (x ++ sep ++ join sep tl)%string
  end.

Definition Sprint (l : list string) : string := ("[" ++ join " " l ++ "]")%string.

Section Validate.

(** The verb [%q] on a string, [strconv.Quote], is taken as it comes. *)
Variable Quote : string -> string.

Definition validate (o : cadRunOptions) : option error :=
  if String.eqb (clusterID o) "" then Some (errorString "cluster-id is required")
  else if negb (Contains validInvestigations (investigation o)) then
    Some (errorString
            ("invalid investigation " ++ Quote (investigation o)
             ++ ", must be one of: " ++ Sprint validInvestigations)%string)
  else if negb (Contains validEnvironments (environment o)) then
    Some (errorString
            ("invalid environment " ++ Quote (environment o)
             ++ ", must be one of: " ++ Sprint validEnvironments)%string)
  else if String.eqb (elevationReason o) "" then
    Some (errorString "elevation reason is required")
  else None.

End Validate.

Definition getCADClusterConfig (o : cadRunOptions) : string * string :=
  if String.eqb (environment o) "stage"
  then (cadClusterIDStage, cadNamespaceStage)
  else (cadClusterIDProd, cadNamespaceProd).

End cad.

(** ** strings *)

Module strings.

Fixpoint take (n : nat) (s : string) : string :=
  match n, s with
  | O, _ => EmptyString
  | S _, EmptyString => EmptyString
  | S n', String c r => String c (take n' r)
  end.

Fixpoint HasPrefix (s prefix : string) : bool :=
  match prefix, s with
  | EmptyString, _ => true
  | String _ _, EmptyString => false
  | String a p, String b r => Ascii.eqb a b && HasPrefix r p
  end.

(** [Index s substr]: the index of the first instance of [substr] in [s];
    [None] stands for [-1]. *)
Fixpoint Index (s substr : string) : option nat :=
  if HasPrefix s substr then Some O
  else
    match s with
    | EmptyString => None
    | String _ r => option_map S (Index r substr)
    end.

(** [utf8.RuneCountInString]: an invalid or short encoding counts as one rune
    of one byte, as [utf8.DecodeRune] has it. *)
Fixpoint RuneCount_loop (fuel : nat) (s : string) : nat :=
  match fuel with
  | O => O
  | S fuel' =>
      match s with
      | EmptyString => O
      | String _ _ =>
          S (RuneCount_loop fuel' (drop (snd (utf8.DecodeRune s)) s))
      end
  end.

Definition RuneCountInString (s : string) : nat := RuneCount_loop (len s) s.

(** The loop of [Count] for a separator that is not empty. *)
Fixpoint Count_loop (fuel : nat) (s substr : string) : nat :=
  match fuel with
  | O => O
  | S fuel' =>
      match Index s substr with
      | None => O
      | Some i => S (Count_loop fuel' (drop (i + len substr) s) substr)
      end
  end.

Definition Count (s substr : string) : nat :=
  if String.eqb substr "" then (RuneCountInString s + 1)%nat
  else Count_loop (len s) s substr.

(** [explode s n] for [n < 0], which is how [genSplit] calls it from
    [SplitAfter]: [n] becomes the number of runes of [s]. *)
Fixpoint explode_loop (k : nat) (s : string) : list string * string :=
  match k with
  | O => ([], s)
  | S k' =>
      let size := snd (utf8.DecodeRune s) in
      let '(a, s') := explode_loop k' (drop size s) in
      (take size s :: a, s')
  end.

Definition explode (s : string) : list string :=
  let n := RuneCountInString s in
  let '(a, s') := explode_loop (n - 1) s in
  if (0 <? n)%nat then a ++ [s'] else a.

(** The loop of [genSplit]: [for i < n], with the rest of [s] as the last
    piece. *)
Fixpoint genSplit_loop (n : nat) (s sep : string) (sepSave : nat)
  : list string :=
  match n with
  | O => [s]
  | S n' =>
      match Index s sep with
      | None => [s]
      | Some m =>
          take (m + sepSave) s
            :: genSplit_loop n' (drop (m + len sep) s) sep sepSave
      end
  end.

(** [genSplit s sep sepSave n] for [n < 0]. *)
Definition genSplit (s sep : string) (sepSave : nat) : list string :=
  if String.eqb sep "" then explode s
  else
    let n := (Count s sep + 1)%nat in
    let n := if (len s + 1 <? n)%nat then (len s + 1)%nat else n in
    genSplit_loop (n - 1) s sep sepSave.

Definition SplitAfter (s sep : string) : list string :=
  genSplit s sep (len sep).

End strings.

(** ** cmd/dynatrace/cluster.go *)

Module dynatrace.

Record HCPCluster : Type := {
  name : string;
  internalID : string;
  externalID : string;
  managementClusterID : string;
  klusterletNS : string;
  hostedNS : string;
  hcpNamespace : string;
  managementClusterName : string;
  DynatraceURL : string;
  serviceClusterID : string;
  serviceClusterName : string
}.

(** [HCPCluster{}]. *)
Definition zero : HCPCluster :=
  {| name := ""; internalID := ""; externalID := ""; managementClusterID := "";
     klusterletNS := ""; hostedNS := ""; hcpNamespace := "";
     managementClusterName := ""; DynatraceURL := ""; serviceClusterID := "";
     serviceClusterName := "" |}.

Definition ErrUnsupportedCluster : error :=
  errorString "not an HCP or MC Cluster".

(** What [FetchClusterDetails] calls of the package [ocmutils] and of the
    OCM SDK: [Connection] and [Cluster] are the pointers [*sdk.Connection]
    and [*cmv1.Cluster]; [Enabled c] is [c.Hypershift().Enabled()];
    [ErrorText] is the method [Error] of an error; [Close] returns or
    panics. *)
Class Ocm (Connection Cluster : Type) : Type := {
  IsValidClusterKey : string -> option error;
  CreateConnection : Connection * option error;
  Close : Connection -> Go (option error);
  GetCluster : Connection -> string -> Cluster * option error;
  IsManagementCluster : string -> bool * option error;
  GetDynatraceURLFromLabel : string -> string * option error;
  GetManagementCluster : string -> Cluster * option error;
  GetServiceCluster : string -> Cluster * option error;
  GetHCPNamespace : string -> string * option error;
  Enabled : Cluster -> bool;
  ID : Cluster -> string;
  Name : Cluster -> string;
  ExternalID : Cluster -> string;
  ErrorText : error -> string
}.

(** A newline, as [\n] in a Go string. *)
Definition nl : string := String "010"%char EmptyString.

(** [a[0]]. *)
Definition index0 (a : list string) : Go string :=
  match a with
  | x :: _ => Ret x
  | [] => Panic "runtime error: index out of range [0] with length 0"
  end.

(** [defer d]: the call [d] runs when the function ends, also when it ends
    in a panic; a panic of [d] becomes the panic of the function. *)
Definition defer {A B : Type} (d : Go B) (m : Go A) : Go A :=
  match d with
  | Panic msg => Panic msg
  | Ret _ => m
  end.

Section FetchClusterDetails.

Context {Connection Cluster : Type} `{Ocm Connection Cluster}.

(** The function from the call of [GetCluster] on. *)
Definition with_connection (connection : Connection) (clusterKey : string)
  : Go (HCPCluster * option error) :=
  let hcpCluster := zero in
  let '(cluster, err) := GetCluster connection clusterKey in
  match err with
  | Some err => Ret (zero, Some err)
  | None =>
      if negb (Enabled cluster) then
        let '(isMC, err) := IsManagementCluster (ID cluster) in
        if negb isMC || (match err with Some _ => true | None => false end)
        then Ret (zero, Some ErrUnsupportedCluster)
        else
          let managementClusterID := ID cluster in
          let managementClusterName := Name cluster in
          let '(url, err) := GetDynatraceURLFromLabel managementClusterID in
          match err with
          | Some err =>
              Ret (zero,
                   Some (errorString
                           ("the Dynatrace Environment URL could not be determined. "
                            ++ nl
                            ++ "Please refer the SOP to determine the correct Dynatrace Tenant URL- https://github.com/openshift/ops-sop/tree/master/dynatrace#what-environments-are-there "
                            ++ nl ++ nl ++ "Error Details - "
                            ++ ErrorText err)%string))
          | None =>
              Ret ({| name := name hcpCluster;
                      internalID := internalID hcpCluster;
                      externalID := externalID hcpCluster;
                      managementClusterID := managementClusterID;
                      klusterletNS := klusterletNS hcpCluster;
                      hostedNS := hostedNS hcpCluster;
                      hcpNamespace := hcpNamespace hcpCluster;
                      managementClusterName := managementClusterName;
                      DynatraceURL := url;
                      serviceClusterID := serviceClusterID hcpCluster;
                      serviceClusterName := serviceClusterName hcpCluster |},
                   None)
          end
      else
        let '(mgmtCluster, err) := GetManagementCluster (ID cluster) in
        match err with
        | Some err =>
            Ret (zero,
                 Some (errorString
                         ("error retreiving Management Cluster for given HCP "
                          ++ ErrorText err)%string))
        | None =>
            let '(svcCluster, err) := GetServiceCluster (ID cluster) in
            match err with
            | Some err =>
                Ret (zero,
                     Some (errorString
                             ("error retreiving Service Cluster for given HCP "
                              ++ ErrorText err)%string))
            | None =>
                let '(hcpNamespace, err) := GetHCPNamespace (ID cluster) in
                match err with
                | Some _ =>
                    Ret (zero,
                         Some (errorString
                                 "error retreiving HCP Namespace for given cluster"))
                | None =>
                    let klusterletNS := ("klusterlet-" ++ ID cluster)%string in
                    hostedNS <-
                      index0 (strings.SplitAfter hcpNamespace (ID cluster)) ;;
                    let '(url, err) :=
                      GetDynatraceURLFromLabel (ID mgmtCluster) in
                    match err with
                    | Some err =>
                        Ret (zero,
                             Some (errorString
                                     ("the Dynatrace Environemnt URL could not be determined. "
                                      ++ nl
                                      ++ "Please refer the SOP to determine the correct Dyntrace Tenant URL- https://github.com/openshift/ops-sop/tree/master/dynatrace#what-environments-are-there "
                                      ++ nl ++ nl ++ "Error Details - "
                                      ++ ErrorText err)%string))
                    | None =>
                        Ret ({| name := Name cluster;
                                internalID := ID cluster;
                                externalID := ExternalID cluster;
                                managementClusterID := ID mgmtCluster;
                                klusterletNS := klusterletNS;
                                hostedNS := hostedNS;
                                hcpNamespace := hcpNamespace;
                                managementClusterName := Name mgmtCluster;
                                DynatraceURL := url;
                                serviceClusterID := ID svcCluster;
                                serviceClusterName := Name svcCluster |},
                             None)
                    end
                end
            end
        end
  end.

Definition FetchClusterDetails (clusterKey : string)
  : Go (HCPCluster * option error) :=
  let hcpCluster := zero in
  match IsValidClusterKey clusterKey with
  | Some err => Ret (hcpCluster, Some err)
  | None =>
      let '(connection, err) := CreateConnection in
      match err with
      | Some err => Ret (zero, Some err)
      | None =>
          defer (Close connection) (with_connection connection clusterKey)
      end
  end.

End FetchClusterDetails.

(** A fleet for the examples: a cluster is its identifier and whether it is
    a hosted one; the key of a cluster is its identifier. *)
#[global] Instance fleet : Ocm unit (string * bool) := {
  IsValidClusterKey := fun key =>
    if String.eqb key "" then Some (errorString "empty cluster key") else None;
  CreateConnection := (tt, None);
  Close := fun _ => Ret None;
  GetCluster := fun _ key => ((key, String.eqb key "hcp1"), None);
  IsManagementCluster := fun id => (String.eqb id "mc1", None);
  GetDynatraceURLFromLabel := fun id =>
    if String.eqb id "mc1" then ("https://abc.live.dynatrace.com", None)
    else ("", Some (errorString "no label"));
  GetManagementCluster := fun _ => (("mc1", false), None);
  GetServiceCluster := fun _ => (("sc1", false), None);
  GetHCPNamespace := fun id => (("ocm-production-" ++ id ++ "-web")%string, None);
  Enabled := snd;
  ID := fst;
  Name := fun c => ("name-" ++ fst c)%string;
  ExternalID := fun c => ("ext-" ++ fst c)%string;
  ErrorText := fun _ => "error"
}.

End dynatrace.

(** The options of the first example of the command's help. *)
Definition example_options : cad.cadRunOptions :=
  {| cad.clusterID := "1a2b3c4d5e6f7g8h9i0j";
     cad.investigation := "chgm";
     cad.elevationReason := "OHSS-12345";
     cad.environment := "production";
     cad.isDryRun := false |}.

(** * Properties *)

Lemma ExtractUserDetails_some (data : string) :
  data <> "" ->
  ExtractUserDetails (Some data) =
  let '(res, err) := Unmarshal data zero in
  match err with
  | Some e => Ret (Some zero, Some (DecodeError e))
  | None =>
      let '(responseMajor, responseMinor, err) :=
        fmt.Sscanf (EventVersion res) 0 0 in
      match err with
      | Some e => Ret (Some zero, Some (VersionParseError e))
      | None =>
          if negb (responseMajor =? supportedEventVersionMajor)
             || (responseMinor <? minSupportedEventVersionMinor)
          then Ret (Some zero, Some (UnsupportedVersion (EventVersion res)))
          else Ret (Some res, None)
      end
  end.
Proof.
  intros Hne. destruct data as [|c r]; [congruence|]. reflexivity.
Qed.

Lemma Unmarshal_empty (res : RawEventDetails) :
  Unmarshal "" res = (res, Some SyntaxError).
Proof. reflexivity. Qed.

Lemma Unmarshal_ok_nonempty (data : string) (res : RawEventDetails) :
  Unmarshal data zero = (res, None) -> data <> "".
Proof.
  intros H ->. rewrite Unmarshal_empty in H. discriminate.
Qed.

(** C4.  A nil input and an empty input fail with the error
    ["cannot parse a nil input"], and the pointer returned is that of a zero
    value; no input makes the function panic. *)
Theorem C4_nil_or_empty_input :
  ExtractUserDetails None = Ret (Some zero, Some InvalidInput)
  /\ ExtractUserDetails (Some "") = Ret (Some zero, Some InvalidInput)
  /\ InvalidInput = errorString "cannot parse a nil input"
  /\ forall cloudTrailEvent, returns (ExtractUserDetails cloudTrailEvent).
Proof.
  repeat split; try reflexivity.
  intros [data|]; [|eexists; reflexivity].
  destruct data as [|c r]; [eexists; reflexivity|].
  rewrite ExtractUserDetails_some by discriminate.
  destruct (Unmarshal _ _) as [res [e|]]; [eexists; reflexivity|].
  destruct (fmt.Sscanf _ _ _) as [[a b] [e|]]; [eexists; reflexivity|].
  destruct (_ || _); eexists; reflexivity.
Qed.

(** C9.  Whenever [ExtractUserDetails] returns an error, the pointer it
    returns is not nil and points to the zero value of [RawEventDetails]. *)
Theorem C9_error_comes_with_zero_details :
  forall cloudTrailEvent details err,
    ExtractUserDetails cloudTrailEvent = Ret (details, Some err) ->
    details = Some zero.
Proof.
  intros [data|] details err H; [|inversion H; reflexivity].
  destruct data as [|c r]; [inversion H; reflexivity|].
  rewrite ExtractUserDetails_some in H by discriminate.
  destruct (Unmarshal _ _) as [res [e|]]; [inversion H; reflexivity|].
  destruct (fmt.Sscanf _ _ _) as [[a b] [e|]]; [inversion H; reflexivity|].
  destruct (_ || _); inversion H; reflexivity.
Qed.

Lemma C9_witness :
  ExtractUserDetails (Some (json_text "{'eventVersion':'1.7','awsRegion':'eu-west-1'}"))
  = Ret (Some zero, Some (UnsupportedVersion "1.7"))
  /\ Some zero = Some zero.
Proof.
  split; [reflexivity|].
  exact (C9_error_comes_with_zero_details
           (Some (json_text "{'eventVersion':'1.7','awsRegion':'eu-west-1'}"))
           (Some zero) (UnsupportedVersion "1.7") eq_refl).
Defined.

(** C10.  The result of [GetEvents] does not depend on its first argument. *)
Theorem C10_first_argument_ignored :
  forall (Config Client : Type) (S : cloudtrail.Service Config Client)
         (a : EventAPI Client) (x y : string) (missing : Period) (fuel : nat),
    GetEvents a x missing fuel = GetEvents a y missing fuel.
Proof. reflexivity. Qed.

Lemma ExtractUserDetails_scanned (data : string) (res : RawEventDetails)
  (major minor : Z) :
  Unmarshal data zero = (res, None) ->
  fmt.Sscanf (EventVersion res) 0 0 = (major, minor, None) ->
  ExtractUserDetails (Some data) =
  if negb (major =? 1) || (minor <? 8)
  then Ret (Some zero, Some (UnsupportedVersion (EventVersion res)))
  else Ret (Some res, None).
Proof.
  intros HU HS.
  rewrite ExtractUserDetails_some by (eapply Unmarshal_ok_nonempty; eauto).
  rewrite HU, HS. reflexivity.
Qed.

Lemma window_spec (major minor : Z) :
  negb (major =? 1) || (minor <? 8) = true <-> major <> 1 \/ minor < 8.
Proof.
  rewrite orb_true_iff, negb_true_iff, Z.eqb_neq, Z.ltb_lt. reflexivity.
Qed.

(** C3.  When the JSON parses and the version scans as two integers, the
    extraction fails with the unsupported-version error exactly when the
    major is not 1 or the minor is below 8, and it succeeds otherwise; so
    ["1.7"] and ["2.9"] are refused, ["1.8"] and ["1.20"] are accepted. *)
Theorem C3_unsupported_version_window :
  (forall data res major minor,
      Unmarshal data zero = (res, None) ->
      fmt.Sscanf (EventVersion res) 0 0 = (major, minor, None) ->
      (fails_with_UnsupportedVersion (ExtractUserDetails (Some data))
       <-> major <> 1 \/ minor < 8)
      /\ (major = 1 /\ 8 <= minor ->
          succeeds_with (ExtractUserDetails (Some data)) res))
  /\ fails_with_UnsupportedVersion
       (ExtractUserDetails (Some (json_text "{'eventVersion':'1.7'}")))
  /\ fails_with_UnsupportedVersion
       (ExtractUserDetails (Some (json_text "{'eventVersion':'2.9'}")))
  /\ succeeds_with
       (ExtractUserDetails (Some (json_text "{'eventVersion':'1.8'}")))
       (payload_details (json.Object [("eventVersion", json.Str "1.8")]))
  /\ succeeds_with
       (ExtractUserDetails (Some (json_text "{'eventVersion':'1.20'}")))
       (payload_details (json.Object [("eventVersion", json.Str "1.20")])).
Proof.
  split; [|repeat split].
  - intros data res major minor HU HS.
    pose proof (ExtractUserDetails_scanned _ _ _ _ HU HS) as HE.
    pose proof (window_spec major minor) as HW.
    destruct (negb (major =? 1) || (minor <? 8)) eqn:Hw.
    + split; [split|].
      * intros _. apply HW. reflexivity.
      * intros _. exists (Some zero), (EventVersion res). exact HE.
      * intros [-> Hm]. destruct HW as [HW _].
        destruct (HW eq_refl) as [Hc|Hc]; [congruence|lia].
    + split; [split|].
      * intros [d [got Hf]]. rewrite HE in Hf. discriminate.
      * intros Hc. destruct HW as [_ HW]. specialize (HW Hc). discriminate.
      * intros _. exact HE.
  - exists (Some zero), "1.7". reflexivity.
  - exists (Some zero), "2.9". reflexivity.
Qed.

Lemma C3_witness :
  fails_with_UnsupportedVersion
    (ExtractUserDetails (Some (json_text "{'eventVersion':'1.7'}")))
  <-> 1 <> 1 \/ 7 < 8.
Proof.
  exact (proj1 (proj1 C3_unsupported_version_window
                  (json_text "{'eventVersion':'1.7'}")
                  {| EventVersion := "1.7"; UserIdentity := zero_userIdentity;
                     EventRegion := ""; EventId := ""; ErrorCode := "" |}
                  1 7 eq_refl eq_refl)).
Defined.

(** *** The paginator *)

Lemma received_app (a b : list chan_op) :
  received (a ++ b) = received a ++ received b.
Proof. apply flat_map_app. Qed.

Lemma records_app (a b : list EventResult) :
  records (a ++ b) = records a ++ records b.
Proof. apply flat_map_app. Qed.

Lemma received_defer_close {Client : Type} (g : goroutine Client) :
  received (pageChan (defer_close g)) = received (pageChan g).
Proof.
  unfold defer_close. destruct (state g); simpl; trivial;
    rewrite received_app; simpl; apply app_nil_r.
Qed.

Lemma paginator_defer_close {Client : Type} (g : goroutine Client) :
  paginator (defer_close g) = paginator g.
Proof. unfold defer_close. destruct (state g); reflexivity. Qed.

Lemma scripted_client (cfg : list (cloudtrail.LookupEventsOutput + error))
  (w : bool) (region : string) :
  NewEventAPI cfg w region
  = {| client := {| script := cfg; queries := [] |}; writeOnly := w |}.
Proof. unfold NewEventAPI. destruct (negb _); reflexivity. Qed.




(** When the goroutine has returned, no page remains, and the last thing
    that happened on the channel is its closure. *)
Lemma loop_returned {Config Client : Type} `{cloudtrail.Service Config Client}
  (fuel : nat) :
  forall (p : cloudtrail.LookupEventsPaginator Client)
         (all : list types.Event) (ch : list chan_op),
    state (loop fuel p all ch) = Returned ->
    cloudtrail.HasMorePages (paginator (loop fuel p all ch)) = false.
Proof.
  induction fuel as [|fuel IH]; intros p all ch; simpl; [discriminate|].
  destruct (cloudtrail.HasMorePages p) eqn:Hmore; simpl; [|intros _; exact Hmore].
  destruct (cloudtrail.NextPage p) as [[[out|] err] p']; simpl.
  - apply IH.
  - discriminate.
Qed.

Lemma returned_no_more_pages {Config Client : Type}
  `{cloudtrail.Service Config Client} (a : EventAPI Client) (s : string)
  (missing : Period) (fuel : nat) :
  state (GetEvents a s missing fuel) = Returned ->
  cloudtrail.HasMorePages (paginator (GetEvents a s missing fuel)) = false
  /\ exists ops, pageChan (GetEvents a s missing fuel) = ops ++ [close].
Proof.
  unfold GetEvents, defer_close.
  destruct (state (loop _ _ _ _)) eqn:Hst; simpl; intros Hret;
    try discriminate; try congruence.
  split; [|eauto].
  apply loop_returned. exact Hst.
Qed.

(** C5.  Against a service that answers three pages of 2, 2 and 1 records
    and no error, the consumer receives three results, the three pages in
    order, each without an error, then the closure of the channel; the
    records received are 5 in all. *)
Theorem C5_three_pages :
  forall (p1 p2 p3 : list types.Event) (t1 t2 : string) (last : option string)
         (w : bool) (region s : string) (missing : Period) (fuel : nat),
    List.length p1 = 2%nat -> List.length p2 = 2%nat -> List.length p3 = 1%nat ->
    t1 <> "" -> t2 <> "" -> cloudtrail.nonempty last = false ->
    (4 <= fuel)%nat ->
    let g :=
      GetEvents
        (NewEventAPI [page p1 (Some t1); page p2 (Some t2); page p3 last]
           w region)
        s missing fuel in
    pageChan g
    = [ send {| AWSEvent := p1; errors := None |};
        send {| AWSEvent := p2; errors := None |};
        send {| AWSEvent := p3; errors := None |};
        close ]
    /\ state g = Returned
    /\ List.length (received (pageChan g)) = 3%nat
    /\ closed (pageChan g) = true
    /\ List.length (List.concat (map AWSEvent (received (pageChan g)))) = 5%nat.
Proof.
  intros p1 p2 p3 t1 t2 last w region s missing fuel H1 H2 H3 Ht1 Ht2 Hl Hf g.
  assert (Hg : pageChan g
               = [ send {| AWSEvent := p1; errors := None |};
                   send {| AWSEvent := p2; errors := None |};
                   send {| AWSEvent := p3; errors := None |};
                   close ]
               /\ state g = Returned).
  { subst g. rewrite scripted_client.
    destruct fuel as [|[|[|[|n]]]]; try lia.
    destruct t1 as [|c1 t1]; [congruence|].
    destruct t2 as [|c2 t2]; [congruence|].
    destruct last as [[|c3 t3]|]; try discriminate; split; reflexivity. }
  destruct Hg as [Hch Hst]. rewrite Hch. simpl.
  repeat split; trivial.
  rewrite !length_app, H1, H2, H3. reflexivity.
Qed.

Lemma C5_witness :
  pageChan
    (GetEvents
       (NewEventAPI
          [page [event "e1"; event "e2"] (Some "t1");
           page [event "e3"; event "e4"] (Some "t2");
           page [event "e5"] None] true "us-east-1")
       "" {| StartTime := 0; EndTime := 3600 |} 4)
  = [ send {| AWSEvent := [event "e1"; event "e2"]; errors := None |};
      send {| AWSEvent := [event "e3"; event "e4"]; errors := None |};
      send {| AWSEvent := [event "e5"]; errors := None |};
      close ].
Proof.
  refine (proj1 (C5_three_pages [event "e1"; event "e2"] [event "e3"; event "e4"]
                   [event "e5"] "t1" "t2" None true "us-east-1" ""
                   {| StartTime := 0; EndTime := 3600 |} 4
                   eq_refl eq_refl eq_refl _ _ eq_refl _));
    try discriminate; lia.
Defined.

(** C1, at the input where the claim fails.  The second of three fetches
    fails: the paginator of the SDK returns a nil output with the error.  The
    consumer receives the first page and the result that carries the error;
    then [lookupOutput.Events] dereferences the nil output, the goroutine
    panics and the deferred call closes the channel.  The third page is
    never asked for: the service has received two queries. *)
Theorem C1_error_page_panics :
  forall (p1 p3 : list types.Event) (c : ascii) (t : string) (e : error)
         (w : bool) (region s : string) (missing : Period) (n : nat),
    let g :=
      GetEvents
        (NewEventAPI [page p1 (Some (String c t)); inr e; page p3 None] w region)
        s missing (S (S n)) in
    pageChan g
    = [ send {| AWSEvent := p1; errors := None |};
        send {| AWSEvent := []; errors := Some e |};
        close ]
    /\ state g = Panicked nil_dereference
    /\ List.length (queries (cloudtrail.client (paginator g))) = 2%nat
    /\ script (cloudtrail.client (paginator g)) = [page p3 None].
Proof.
  intros. subst g. rewrite scripted_client. repeat split; reflexivity.
Qed.

(** C8, at the input where the claim fails.  The first fetch fails: the
    goroutine sends the error, panics on the nil output, and the deferred
    call closes the channel while the paginator still has pages. *)
Theorem C8_closed_while_pages_remain :
  forall (e : error) (rest : list (cloudtrail.LookupEventsOutput + error))
         (w : bool) (region s : string) (missing : Period) (n : nat),
    let g := GetEvents (NewEventAPI (inr e :: rest) w region) s missing (S n) in
    pageChan g = [send {| AWSEvent := []; errors := Some e |}; close]
    /\ state g = Panicked nil_dereference
    /\ cloudtrail.HasMorePages (paginator g) = true
    /\ script (cloudtrail.client (paginator g)) = rest.
Proof.
  intros. subst g. rewrite scripted_client. repeat split; reflexivity.
Qed.

(** *** UTF-8 and the scanner *)

Lemma byte_val_nonneg (c : ascii) : 0 <= byte_val c.
Proof. unfold byte_val. lia. Qed.

Lemma byte_val_inj (c d : ascii) : byte_val c = byte_val d -> c = d.
Proof.
  unfold byte_val. intros H. apply N2Z.inj in H.
  rewrite <- (ascii_N_embedding c), <- (ascii_N_embedding d), H. reflexivity.
Qed.

Lemma lor_small (a b n : Z) :
  0 <= a -> 0 <= b -> 0 <= n -> Z.lor a b < 2 ^ n -> a < 2 ^ n /\ b < 2 ^ n.
Proof.
  intros Ha Hb Hn H.
  assert (Hp : 0 < 2 ^ n) by (apply Z.pow_pos_nonneg; lia).
  assert (Hl : 0 <= Z.lor a b) by (apply Z.lor_nonneg; auto).
  destruct (Z.eq_dec (Z.lor a b) 0) as [H0|H0].
  - apply Z.lor_eq_0_iff in H0. lia.
  - apply Z.log2_lt_pow2 in H; [|lia].
    rewrite Z.log2_lor in H by assumption.
    split.
    + destruct (Z.eq_dec a 0); [lia|]. apply Z.log2_lt_pow2; lia.
    + destruct (Z.eq_dec b 0); [lia|]. apply Z.log2_lt_pow2; lia.
Qed.

Lemma land_low (a : Z) (k : Z) :
  0 <= k -> Z.land a (Z.ones k) = a mod 2 ^ k.
Proof. intros. apply Z.land_ones. assumption. Qed.

(** A rune below 128 is encoded by the single byte of its value. *)
Lemma DecodeRune_ascii (c : ascii) (r : string) (x : Z) (n : nat) :
  utf8.DecodeRune (String c r) = (x, n) -> x < 128 ->
  x = byte_val c /\ n = 1%nat.
Proof.
  unfold utf8.DecodeRune.
  pose proof (byte_val_nonneg c) as Hc.
  destruct (byte_val c <? 128) eqn:H0.
  { intros H _. inversion H. auto. }
  apply Z.ltb_ge in H0.
  destruct (utf8.first (byte_val c)) as [[[sz lo] hi]|] eqn:Hfirst.
  2:{ intros H Hx. inversion H. unfold utf8.RuneError in *. lia. }
  assert (Hrange :
    hi <= 191
    /\ ((sz = 2%nat /\ 194 <= byte_val c <= 223 /\ 128 <= lo)
        \/ (sz = 3%nat /\ byte_val c = 224 /\ 160 <= lo)
        \/ (sz = 3%nat /\ 225 <= byte_val c <= 239 /\ 128 <= lo)
        \/ (sz = 4%nat /\ byte_val c = 240 /\ 144 <= lo)
        \/ (sz = 4%nat /\ 241 <= byte_val c <= 244 /\ 128 <= lo))).
  { unfold utf8.first in Hfirst.
    repeat match type of Hfirst with
           | (if ?b then _ else _) = _ => destruct b eqn:?
           end; inversion Hfirst; subst; lia. }
  clear Hfirst. destruct Hrange as [Hhi Hrange].
  destruct r as [|c1 r1]; [intros H Hx; inversion H; unfold utf8.RuneError in *; lia|].
  pose proof (byte_val_nonneg c1) as Hc1.
  destruct ((byte_val c1 <? lo) || (hi <? byte_val c1)) eqn:H1;
    [intros H Hx; inversion H; unfold utf8.RuneError in *; lia|].
  apply orb_false_iff in H1. destruct H1 as [H1 H1'].
  apply Z.ltb_ge in H1. apply Z.ltb_ge in H1'.
  assert (E31 : Z.land (byte_val c) 31 = byte_val c mod 2 ^ 5)
    by (apply (land_low _ 5); lia).
  assert (E15 : Z.land (byte_val c) 15 = byte_val c mod 2 ^ 4)
    by (apply (land_low _ 4); lia).
  assert (E7 : Z.land (byte_val c) 7 = byte_val c mod 2 ^ 3)
    by (apply (land_low _ 3); lia).
  assert (E63 : Z.land (byte_val c1) 63 = byte_val c1 mod 2 ^ 6)
    by (apply (land_low _ 6); lia).
  assert (Hsmall : forall a b, 0 <= a -> 0 <= b -> Z.lor a b < 128 -> a < 128 /\ b < 128)
    by (intros a b Ha Hb; apply (lor_small a b 7); lia).
  assert (Hge : forall a b, 0 <= a -> 0 <= b -> 0 <= Z.lor a b)
    by (intros; apply Z.lor_nonneg; auto).
  assert (Hm : 0 <= byte_val c1 mod 2 ^ 6)
    by (apply Z.mod_pos_bound; lia).
  destruct (sz <=? 2)%nat eqn:Hsz2.
  { intros H Hx. apply pair_equal_spec in H. destruct H as [Hv Hn]. exfalso.
    rewrite <- Hv in Hx. rewrite Z.shiftl_mul_pow2, E31, E63 in Hx by lia.
    apply Hsmall in Hx; [|Z.div_mod_to_equations; lia|lia].
    apply Nat.leb_le in Hsz2.
    destruct Hrange as [H2|[H2|[H2|[H2|H2]]]]; try lia.
    Z.div_mod_to_equations. lia. }
  destruct r1 as [|c2 r2]; [intros H Hx; inversion H; unfold utf8.RuneError in *; lia|].
  pose proof (byte_val_nonneg c2) as Hc2.
  destruct (negb (utf8.cont (byte_val c2)));
    [intros H Hx; inversion H; unfold utf8.RuneError in *; lia|].
  assert (Hl2 : 0 <= Z.land (byte_val c2) 63) by (apply Z.land_nonneg; lia).
  destruct (sz <=? 3)%nat eqn:Hsz3.
  { intros H Hx. apply pair_equal_spec in H. destruct H as [Hv Hn]. exfalso.
    rewrite <- Hv in Hx.
    rewrite !Z.shiftl_mul_pow2, E15, E63 in Hx by lia.
    apply Nat.leb_le in Hsz3. apply Nat.leb_gt in Hsz2.
    apply Hsmall in Hx;
      [|Z.div_mod_to_equations; lia|apply Hge; [lia|exact Hl2]].
    destruct Hx as [Hx1 Hx2].
    apply Hsmall in Hx2; [|lia|exact Hl2].
    destruct Hrange as [H2|[H2|[H2|[H2|H2]]]]; try lia;
      Z.div_mod_to_equations; lia. }
  destruct r2 as [|c3 r3]; [intros H Hx; inversion H; unfold utf8.RuneError in *; lia|].
  destruct (negb (utf8.cont (byte_val c3)));
    [intros H Hx; inversion H; unfold utf8.RuneError in *; lia|].
  pose proof (byte_val_nonneg c3) as Hc3.
  assert (Hl3 : 0 <= Z.land (byte_val c3) 63) by (apply Z.land_nonneg; lia).
  assert (Hs2 : 0 <= Z.shiftl (Z.land (byte_val c2) 63) 6)
    by (apply Z.shiftl_nonneg; exact Hl2).
  intros H Hx. apply pair_equal_spec in H. destruct H as [Hv Hn]. exfalso.
  rewrite <- Hv in Hx.
  rewrite (Z.shiftl_mul_pow2 _ 18), (Z.shiftl_mul_pow2 _ 12), E7, E63 in Hx by lia.
  apply Nat.leb_gt in Hsz3.
  apply Hsmall in Hx;
    [|Z.div_mod_to_equations; lia|apply Hge; [lia|apply Hge; assumption]].
  destruct Hx as [Hx1 Hx2].
  apply Hsmall in Hx2; [|lia|apply Hge; assumption].
  destruct Hrange as [H2|[H2|[H2|[H2|H2]]]]; try lia;
    Z.div_mod_to_equations; lia.
Qed.

(** A rune takes at least one byte. *)
Lemma DecodeRune_size (c : ascii) (r : string) :
  (1 <= snd (utf8.DecodeRune (String c r)))%nat.
Proof.
  unfold utf8.DecodeRune.
  repeat match goal with
         | |- context [if ?b then _ else _] => destruct b
         | |- context [match ?x with Some _ => _ | None => _ end] => destruct x
         | |- context [match ?x with (_, _) => _ end] => destruct x
         | |- context [match ?x with EmptyString => _ | String _ _ => _ end] =>
             destruct x
         end; simpl; lia.
Qed.

Lemma len_drop (n : nat) (s : string) : (len (drop n s) <= len s)%nat.
Proof.
  revert s. induction n as [|n IH]; intros [|c r]; simpl; try lia.
  specialize (IH r). unfold len in *. lia.
Qed.

Lemma getRune_shorter (s : string) (r : Z) (rest : string) :
  fmt.getRune s = Some (r, rest) -> (len rest < len s)%nat.
Proof.
  destruct s as [|c t]; [discriminate|].
  unfold fmt.getRune.
  pose proof (DecodeRune_size c t) as Hs.
  destruct (utf8.DecodeRune (String c t)) as [x n]. simpl in Hs.
  intros H. inversion H. subst.
  destruct n as [|n]; [lia|]. simpl.
  pose proof (len_drop n t). unfold len in *. lia.
Qed.

(** [SkipSpace], when it ends without an error, has skipped the blanks. *)
Lemma SkipSpace_loop_blanks (n : nat) :
  forall s t, fmt.SkipSpace_loop n s = inr t -> skip_blanks n s = t.
Proof.
  induction n as [|n IH]; intros s t; simpl; [congruence|].
  destruct s as [|c r]; [simpl; congruence|].
  unfold fmt.getRune.
  destruct (utf8.DecodeRune (String c r)) as [x size].
  unfold blank.
  destruct ((x =? 13) && fmt.peek 10 (drop size (String c r))) eqn:Hcr.
  - apply andb_prop in Hcr. destruct Hcr as [Hx _].
    apply Z.eqb_eq in Hx. subst x. simpl. apply IH.
  - destruct (x =? 10) eqn:Hnl; [discriminate|].
    destruct (fmt.isSpace x); simpl; [apply IH|congruence].
Qed.

(** Where [SkipSpace] has stopped, it does not move. *)
Lemma SkipSpace_loop_fixed (n : nat) :
  forall s t, (len s <= n)%nat -> fmt.SkipSpace_loop n s = inr t ->
              forall m, fmt.SkipSpace_loop m t = inr t.
Proof.
  induction n as [|n IH]; intros s t Hlen; simpl.
  - destruct s; [|simpl in Hlen; lia].
    intros H m. inversion H. destruct m; reflexivity.
  - destruct (fmt.getRune s) as [[x rest]|] eqn:Hget.
    + pose proof (getRune_shorter _ _ _ Hget) as Hshort.
      destruct ((x =? 13) && fmt.peek 10 rest) eqn:Hcr;
        [apply IH; lia|].
      destruct (x =? 10) eqn:Hnl; [discriminate|].
      destruct (negb (fmt.isSpace x)) eqn:Hsp; [|apply IH; lia].
      intros H m. inversion H. subst t.
      destruct m; simpl; [reflexivity|].
      rewrite Hget, Hcr, Hnl, Hsp. reflexivity.
    + intros H m. inversion H. subst t.
      destruct m; simpl; [reflexivity|]. rewrite Hget. reflexivity.
Qed.

Lemma SkipSpace_twice (s t : string) :
  fmt.SkipSpace s = inr t ->
  fmt.SkipSpace t = inr t /\ skip_blanks (len s) s = t.
Proof.
  unfold fmt.SkipSpace. intros H. split.
  - eapply SkipSpace_loop_fixed; [|exact H]. lia.
  - apply SkipSpace_loop_blanks. exact H.
Qed.

(** The characters of the set [digits] of the scanner are the digits. *)
Lemma mem_digits (c : ascii) :
  fmt.mem c fmt.digits = is_digit c.
Proof.
  destruct c as [[] [] [] [] [] [] [] []]; reflexivity.
Qed.

Lemma digit_no_sign (c : ascii) :
  is_digit c = true -> Ascii.eqb c "+" = false /\ Ascii.eqb c "-" = false.
Proof.
  destruct c as [[] [] [] [] [] [] [] []]; vm_compute; intros; try discriminate;
    split; reflexivity.
Qed.

Lemma ParseUint_loop_digits (s : string) :
  forall n i, strconv.ParseUint_loop s n = inr i ->
              digit_span s = (s, EmptyString).
Proof.
  induction s as [|c r IH]; intros n i; simpl; [reflexivity|].
  destruct (is_digit c); [|discriminate].
  destruct (_ <=? n); [discriminate|].
  destruct (_ || _); [discriminate|].
  intros H. rewrite (IH _ _ H). reflexivity.
Qed.

Lemma digits_app (a b : string) :
  digit_span a = (a, EmptyString) ->
  match b with
  | String c _ => is_digit c = false
  | EmptyString => True
  end ->
  digit_span (a ++ b)%string = (a, b).
Proof.
  induction a as [|c r IH]; simpl; intros Ha Hb.
  - destruct b as [|c r]; [reflexivity|]. simpl. rewrite Hb. reflexivity.
  - destruct (is_digit c); [|discriminate].
    destruct (digit_span r) as [d rest] eqn:Hr.
    inversion Ha. subst. rewrite IH; auto.
Qed.

(** The token that [accept_all] reads, and what is left. *)
Lemma accept_all_split (s : string) :
  forall tok rest,
    fmt.accept_all fmt.digits s = (tok, rest) ->
    s = (tok ++ rest)%string
    /\ match rest with
       | String c _ => is_digit c = false
       | EmptyString => True
       end.
Proof.
  induction s as [|c r IH]; intros tok rest; cbn [fmt.accept_all].
  - intros H. inversion H. auto.
  - rewrite mem_digits.
    destruct (is_digit c) eqn:Hc.
    + destruct (fmt.accept_all fmt.digits r) as [tk rs] eqn:Hr.
      intros H. inversion H. subst. destruct (IH _ _ eq_refl) as [-> Hrest].
      auto.
    + intros H. inversion H. subst. simpl. auto.
Qed.

Lemma ParseInt_unsigned (c : ascii) (r : string) (i : Z) :
  strconv.ParseInt (String c r) = inr i ->
  exists u,
    strconv.ParseUint
      (if Ascii.eqb c "+" || Ascii.eqb c "-" then r else String c r) = inr u.
Proof.
  unfold strconv.ParseInt.
  destruct (Ascii.eqb c "+"); [|destruct (Ascii.eqb c "-")]; cbn [orb];
    (destruct (strconv.ParseUint _) as [e|u]; [destruct e; discriminate|eauto]).
Qed.

Lemma scanNumber_digits (buf s2 tok s3 : string) (i : Z) :
  (buf = EmptyString
   /\ match s2 with
      | String d _ => Ascii.eqb d "+" || Ascii.eqb d "-" = false
      | EmptyString => True
      end)
  \/ buf = "+"%string \/ buf = "-"%string ->
  fmt.scanNumber buf s2 = inr (tok, s3) ->
  strconv.ParseInt tok = inr i ->
  exists c d, digit_span s2 = (String c d, s3).
Proof.
  intros Hbuf Hscan Hp. unfold fmt.scanNumber in Hscan.
  destruct s2 as [|d s2']; [discriminate|].
  destruct (fmt.accept_all fmt.digits (String d s2')) as [tk rest0] eqn:Hacc.
  destruct tk as [|t0 tok']; [discriminate|].
  inversion Hscan. subst tok rest0. clear Hscan.
  apply accept_all_split in Hacc. destruct Hacc as [Hs Hrest].
  exists t0, tok'.
  assert (Hu : exists u, strconv.ParseUint (String t0 tok') = inr u).
  { destruct Hbuf as [[-> Hns]|[->| ->]];
      cbn [String.append] in Hp; apply ParseInt_unsigned in Hp.
    - simpl in Hs. inversion Hs. subst d. rewrite Hns in Hp. exact Hp.
    - exact Hp.
    - exact Hp. }
  destruct Hu as [u Hu]. unfold strconv.ParseUint in Hu.
  apply ParseUint_loop_digits in Hu.
  rewrite Hs. apply digits_app; assumption.
Qed.

(** A number that [scanInt] reads is a sign, if any, and digits. *)
Lemma scanInt_after_number (s : string) (i : Z) (rest : string) :
  fmt.SkipSpace s = inr s ->
  fmt.scanInt s = inr (i, rest) ->
  after_number s = Some rest.
Proof.
  unfold fmt.scanInt. intros Hfix. rewrite Hfix.
  destruct s as [|c r]; [discriminate|].
  unfold fmt.accept, after_number, skip_sign.
  assert (Hsign : fmt.mem c fmt.sign = Ascii.eqb c "+" || Ascii.eqb c "-")
    by (simpl; rewrite orb_false_r; reflexivity).
  rewrite Hsign.
  destruct (Ascii.eqb c "+" || Ascii.eqb c "-") eqn:Hc.
  - destruct (fmt.scanNumber _ r) as [e|[tok s3]] eqn:Hscan; [discriminate|].
    destruct (strconv.ParseInt tok) as [e|i0] eqn:Hp; [discriminate|].
    intros H. inversion H. subst i0 s3.
    assert (Hbuf : String c EmptyString = "+"%string
                   \/ String c EmptyString = "-"%string).
    { apply orb_prop in Hc. destruct Hc as [Hc|Hc];
        apply Ascii.eqb_eq in Hc; subst; auto. }
    destruct (scanNumber_digits _ _ _ _ _ (or_intror Hbuf) Hscan Hp)
      as [c0 [d Hd]].
    rewrite Hd. reflexivity.
  - destruct (fmt.scanNumber _ (String c r)) as [e|[tok s3]] eqn:Hscan;
      [discriminate|].
    destruct (strconv.ParseInt tok) as [e|i0] eqn:Hp; [discriminate|].
    intros H. inversion H. subst i0 s3.
    destruct (scanNumber_digits EmptyString (String c r) _ _ _
                (or_introl (conj eq_refl Hc)) Hscan Hp)
      as [c0 [d Hd]].
    rewrite Hd. reflexivity.
Qed.

(** The literal [.] of the format has matched the byte [.]. *)
Lemma literal_dot_byte (s t : string) :
  fmt.literal_dot s = inr t -> s = String "." t.
Proof.
  unfold fmt.literal_dot, fmt.getRune.
  destruct s as [|c r]; [discriminate|].
  destruct (utf8.DecodeRune (String c r)) as [x n] eqn:Hdec.
  destruct (x =? 46) eqn:Hx; [|discriminate].
  apply Z.eqb_eq in Hx. subst x.
  destruct (DecodeRune_ascii _ _ _ _ Hdec ltac:(lia)) as [Hc ->].
  intros H. inversion H. simpl. f_equal.
  apply byte_val_inj. rewrite <- Hc. reflexivity.
Qed.

Lemma verb_d_after_number (s : string) (i : Z) (rest : string) :
  fmt.verb_d s = inr (i, rest) ->
  after_number (skip_blanks (len s) s) = Some rest.
Proof.
  unfold fmt.verb_d.
  destruct (fmt.SkipSpace s) as [e|t] eqn:Hskip; [discriminate|].
  destruct (SkipSpace_twice _ _ Hskip) as [Hfix ->].
  apply scanInt_after_number. exact Hfix.
Qed.

(** A version that [Sscanf] scans without an error has the form of two
    numbers around a dot, each after blanks and a sign, if any. *)
Lemma Sscanf_scanned_form (v : string) (a b : Z) :
  fmt.Sscanf v 0 0 = (a, b, None) -> scanned_form v = true.
Proof.
  unfold fmt.Sscanf, scanned_form.
  destruct (fmt.verb_d v) as [e|[x s1]] eqn:H1; [discriminate|].
  destruct (fmt.literal_dot s1) as [e|s2] eqn:H2; [discriminate|].
  destruct (fmt.verb_d s2) as [e|[y s3]] eqn:H3; [discriminate|].
  intros _.
  rewrite (verb_d_after_number _ _ _ H1).
  rewrite (literal_dot_byte _ _ H2).
  rewrite (verb_d_after_number _ _ _ H3). reflexivity.
Qed.

(** C6, as it is stated, fails: the payload [{"eventVersion":" 1.9"}] parses,
    its version starts with a space and so has not the form
    [<integer>.<integer>], and the extraction succeeds. *)
Lemma C6_counterexample :
  ~ (forall data res,
        Unmarshal data zero = (res, None) ->
        version_form (EventVersion res) = false ->
        fails_with_VersionParseError (ExtractUserDetails (Some data))).
Proof.
  intros H.
  destruct (H (json_text "{'eventVersion':' 1.9'}")
              {| EventVersion := " 1.9"; UserIdentity := zero_userIdentity;
                 EventRegion := ""; EventId := ""; ErrorCode := "" |}
              eq_refl eq_refl) as [d [e He]].
  vm_compute in He. discriminate.
Qed.

(** C6, amended.  When the JSON parses and the version has not the form that
    the scan asks for (blanks without a newline, a sign if any, digits, a dot,
    blanks, a sign if any, a digit), the extraction fails with the
    version-parse error and returns the zero value; so do ["abc"] and
    ["1"]. *)
Theorem C6_version_parse_error :
  (forall data res,
      Unmarshal data zero = (res, None) ->
      scanned_form (EventVersion res) = false ->
      exists e,
        ExtractUserDetails (Some data)
        = Ret (Some zero, Some (VersionParseError e)))
  /\ ExtractUserDetails (Some (json_text "{'eventVersion':'abc'}"))
     = Ret (Some zero,
            Some (VersionParseError (errorString "expected integer")))
  /\ ExtractUserDetails (Some (json_text "{'eventVersion':'1'}"))
     = Ret (Some zero, Some (VersionParseError ErrUnexpectedEOF)).
Proof.
  split; [|split; reflexivity].
  intros data res HU Hform.
  rewrite ExtractUserDetails_some by (eapply Unmarshal_ok_nonempty; eauto).
  rewrite HU.
  destruct (fmt.Sscanf (EventVersion res) 0 0) as [[a b] [e|]] eqn:HS.
  - exists e. reflexivity.
  - apply Sscanf_scanned_form in HS. congruence.
Qed.

Lemma C6_witness :
  exists e,
    ExtractUserDetails (Some (json_text "{'eventVersion':'1x.9'}"))
    = Ret (Some zero, Some (VersionParseError e)).
Proof.
  exact (proj1 C6_version_parse_error
           (json_text "{'eventVersion':'1x.9'}")
           {| EventVersion := "1x.9"; UserIdentity := zero_userIdentity;
              EventRegion := ""; EventId := ""; ErrorCode := "" |}
           eq_refl eq_refl).
Defined.

(** *** Decoding a payload of the expected shape *)

Lemma field_in (names : list string) (k f : string) :
  json.field names k = Some f -> In f names.
Proof.
  unfold json.field.
  destruct (find (String.eqb k) names) as [g|] eqn:Hg.
  - intros H. inversion H. subst. apply find_some in Hg. tauto.
  - intros H. apply find_some in H. tauto.
Qed.

Lemma field_none (names : list string) (k f : string) :
  json.field names k = None -> In f names -> String.eqb k f = false.
Proof.
  unfold json.field.
  destruct (find (String.eqb k) names) as [g|] eqn:Hg; [discriminate|].
  intros _ Hin. exact (find_none _ _ Hg f Hin).
Qed.

Lemma member_absent (f : string) (tl : list (string * json.value)) :
  existsb (fun m => String.eqb (fst m) f) tl = false -> member f tl = None.
Proof.
  induction tl as [|[k v] tl IH]; simpl; [reflexivity|].
  intros H. apply orb_false_iff in H. destruct H as [Hk Htl].
  rewrite Hk. auto.
Qed.

Lemma member_skip (k f : string) (v : json.value)
  (tl : list (string * json.value)) :
  String.eqb k f = false -> member f ((k, v) :: tl) = member f tl.
Proof. intros H. simpl. rewrite H. reflexivity. Qed.

Lemma member_here (f : string) (v : json.value)
  (tl : list (string * json.value)) :
  member f ((f, v) :: tl) = Some v.
Proof. simpl. rewrite String.eqb_refl. reflexivity. Qed.

(** One step of the induction over the members of a shaped object. *)
Ltac shaped_step Hs Hfield Hkey Hkind Hdup Htl :=
  cbn [shaped_members] in Hs;
  apply andb_prop in Hs; destruct Hs as [Hs Htl];
  cbn [json.members];
  match goal with
  | |- context [json.field ?names ?k] =>
      destruct (json.field names k) as [f|] eqn:Hfield
  end;
  [ apply andb_prop in Hs; destruct Hs as [Hs Hdup];
    apply andb_prop in Hs; destruct Hs as [Hkey Hkind];
    apply String.eqb_eq in Hkey; subst;
    apply negb_true_iff in Hdup; apply member_absent in Hdup;
    apply field_in in Hfield
  | clear Hs ].

Ltac other_members Hfield :=
  repeat match goal with
         | |- context [member ?f ((?k, ?v) :: ?tl)] =>
             rewrite (member_skip k f v tl)
               by (apply (field_none _ _ _ Hfield); simpl; tauto)
         end.

Lemma members_sessionIssuer (ms : list (string * json.value)) :
  forall cur,
    shaped_members names_sessionIssuer kind_sessionIssuer ms = true ->
    json.members names_sessionIssuer store_sessionIssuer ms cur None
    = (over_sessionIssuer ms cur, None).
Proof.
  induction ms as [|[k v] tl IH]; intros cur Hs.
  - destruct cur; reflexivity.
  - shaped_step Hs Hfield Hkey Hkind Hdup Htl.
    + unfold kind_sessionIssuer in Hkind.
      destruct v; try discriminate.
      simpl in Hfield.
      destruct Hfield as [<-|[<-|[<-|[]]]];
        cbn; rewrite (IH _ Htl); unfold over_sessionIssuer; cbn;
        rewrite Hdup; reflexivity.
    + rewrite (IH _ Htl). unfold over_sessionIssuer.
      other_members Hfield. reflexivity.
Qed.

Lemma store_sessionIssuer_shaped (v : json.value) (cur : sessionIssuer) :
  shaped names_sessionIssuer kind_sessionIssuer v = true ->
  json.store_struct names_sessionIssuer store_sessionIssuer v cur None
  = (over_sessionIssuer (members_of (Some v)) cur, None).
Proof.
  destruct v; try discriminate. apply members_sessionIssuer.
Qed.

Lemma members_sessionContext (ms : list (string * json.value)) :
  forall cur,
    shaped_members names_sessionContext kind_sessionContext ms = true ->
    json.members names_sessionContext store_sessionContext ms cur None
    = (over_sessionContext ms cur, None).
Proof.
  induction ms as [|[k v] tl IH]; intros cur Hs.
  - destruct cur; reflexivity.
  - shaped_step Hs Hfield Hkey Hkind Hdup Htl.
    + simpl in Hfield. destruct Hfield as [<-|[]].
      unfold kind_sessionContext in Hkind.
      cbn [store_sessionContext String.eqb Ascii.eqb Bool.eqb].
      rewrite (store_sessionIssuer_shaped _ _ Hkind).
      rewrite (IH _ Htl). unfold over_sessionContext.
      rewrite member_here, Hdup.
      destruct v; try discriminate. reflexivity.
    + rewrite (IH _ Htl). unfold over_sessionContext.
      other_members Hfield. reflexivity.
Qed.

Lemma store_sessionContext_shaped (v : json.value) (cur : sessionContext) :
  shaped names_sessionContext kind_sessionContext v = true ->
  json.store_struct names_sessionContext store_sessionContext v cur None
  = (over_sessionContext (members_of (Some v)) cur, None).
Proof.
  destruct v; try discriminate. apply members_sessionContext.
Qed.

Lemma members_userIdentity (ms : list (string * json.value)) :
  forall cur,
    shaped_members names_userIdentity kind_userIdentity ms = true ->
    json.members names_userIdentity store_userIdentity ms cur None
    = (over_userIdentity ms cur, None).
Proof.
  induction ms as [|[k v] tl IH]; intros cur Hs.
  - destruct cur; reflexivity.
  - shaped_step Hs Hfield Hkey Hkind Hdup Htl.
    + simpl in Hfield. destruct Hfield as [<-|[<-|[]]].
      * cbn in Hkind. destruct v; try discriminate.
        cbn. rewrite (IH _ Htl). unfold over_userIdentity. cbn.
        rewrite Hdup. reflexivity.
      * cbn [kind_userIdentity String.eqb Ascii.eqb Bool.eqb] in Hkind.
        cbn [store_userIdentity String.eqb Ascii.eqb Bool.eqb].
        rewrite (store_sessionContext_shaped _ _ Hkind).
        rewrite (IH _ Htl). unfold over_userIdentity.
        rewrite member_here, Hdup.
        rewrite (member_skip "sessionContext" "accountId") by reflexivity.
        destruct v; try discriminate. reflexivity.
    + rewrite (IH _ Htl). unfold over_userIdentity.
      other_members Hfield. reflexivity.
Qed.

Lemma store_userIdentity_shaped (v : json.value) (cur : userIdentity) :
  shaped names_userIdentity kind_userIdentity v = true ->
  json.store_struct names_userIdentity store_userIdentity v cur None
  = (over_userIdentity (members_of (Some v)) cur, None).
Proof.
  destruct v; try discriminate. apply members_userIdentity.
Qed.

Lemma members_RawEventDetails (ms : list (string * json.value)) :
  forall cur,
    shaped_members names_RawEventDetails kind_RawEventDetails ms = true ->
    json.members names_RawEventDetails store_RawEventDetails ms cur None
    = (over_RawEventDetails ms cur, None).
Proof.
  induction ms as [|[k v] tl IH]; intros cur Hs.
  - destruct cur; reflexivity.
  - shaped_step Hs Hfield Hkey Hkind Hdup Htl.
    + simpl in Hfield. destruct Hfield as [<-|[<-|[<-|[<-|[<-|[]]]]]].
      2:{ cbn [kind_RawEventDetails String.eqb Ascii.eqb Bool.eqb] in Hkind.
          cbn [store_RawEventDetails String.eqb Ascii.eqb Bool.eqb].
          rewrite (store_userIdentity_shaped _ _ Hkind).
          rewrite (IH _ Htl). unfold over_RawEventDetails.
          rewrite member_here, Hdup.
          rewrite !(member_skip "userIdentity") by reflexivity.
          destruct v; try discriminate. reflexivity. }
      all: cbn in Hkind; destruct v; try discriminate;
        cbn; rewrite (IH _ Htl); unfold over_RawEventDetails; cbn;
        rewrite Hdup; reflexivity.
    + rewrite (IH _ Htl). unfold over_RawEventDetails.
      other_members Hfield. reflexivity.
Qed.

(** Over the zero value, the members of a payload give its details. *)
Lemma over_zero (ms : list (string * json.value)) :
  over_RawEventDetails ms zero = payload_details (json.Object ms).
Proof.
  unfold over_RawEventDetails, payload_details. cbn [members_of].
  destruct (member "userIdentity" ms) as [[| | | | |ms1]|]; try reflexivity.
  unfold over_userIdentity. cbn [members_of].
  destruct (member "sessionContext" ms1) as [[| | | | |ms2]|]; try reflexivity.
  unfold over_sessionContext. cbn [members_of].
  destruct (member "sessionIssuer" ms2) as [[| | | | |ms3]|]; reflexivity.
Qed.

(** A payload of the expected shape is decoded into its details, without an
    error. *)
Lemma Unmarshal_shaped (data : string) (v : json.value) :
  json.parse data = Some v ->
  expected_shape v = true ->
  Unmarshal data zero = (payload_details v, None).
Proof.
  intros Hparse Hshape. unfold Unmarshal. rewrite Hparse.
  destruct v as [| | | | |ms]; try discriminate.
  cbn [json.store_struct].
  rewrite members_RawEventDetails by exact Hshape.
  rewrite over_zero. reflexivity.
Qed.

(** *** The scan of a version written [MAJOR.MINOR] *)

Lemma digits_split (s : string) :
  forall d rest,
    digit_span s = (d, rest) ->
    s = (d ++ rest)%string
    /\ digit_span d = (d, EmptyString)
    /\ match rest with
       | String c _ => is_digit c = false
       | EmptyString => True
       end.
Proof.
  induction s as [|c r IH]; intros d rest; simpl.
  - intros H. inversion H. auto.
  - destruct (is_digit c) eqn:Hc.
    + destruct (digit_span r) as [d' rest'] eqn:Hr.
      intros H. inversion H. subst.
      destruct (IH _ _ eq_refl) as [-> [Hd Hrest]].
      simpl. rewrite Hc, Hd. auto.
    + intros H. inversion H. subst. auto.
Qed.

Lemma accept_all_digits (d : string) :
  forall rest,
    digit_span d = (d, EmptyString) ->
    match rest with
    | String c _ => fmt.mem c fmt.digits = false
    | EmptyString => True
    end ->
    fmt.accept_all fmt.digits (d ++ rest) = (d, rest).
Proof.
  induction d as [|c r IH]; intros rest Hd Hrest.
  - destruct rest as [|c r]; [reflexivity|].
    cbn [String.append fmt.accept_all]. rewrite Hrest. reflexivity.
  - cbn [String.append fmt.accept_all]. rewrite mem_digits.
    simpl in Hd. destruct (is_digit c); [|discriminate].
    destruct (digit_span r) as [d' rest'] eqn:Hr.
    inversion Hd. subst. rewrite IH; auto.
Qed.

Lemma digit_value (c : ascii) :
  is_digit c = true -> 0 <= byte_val c - 48 <= 9.
Proof.
  unfold is_digit, between. intros H. apply andb_prop in H.
  destruct H as [H1 H2]. apply Z.leb_le in H1. apply Z.leb_le in H2. lia.
Qed.

Lemma decimal_from_le (s : string) :
  forall n, digit_span s = (s, EmptyString) -> 0 <= n -> n <= decimal_from n s.
Proof.
  induction s as [|c r IH]; intros n Hd Hn; simpl; [lia|].
  simpl in Hd. destruct (is_digit c) eqn:Hc; [|discriminate].
  destruct (digit_span r) as [d' rest'] eqn:Hr. inversion Hd. subst.
  pose proof (digit_value _ Hc).
  specialize (IH (n * 10 + (byte_val c - 48)) eq_refl ltac:(lia)). lia.
Qed.

(** [ParseUint] reads the number that the digits write, when it fits. *)
Lemma ParseUint_loop_decimal (s : string) :
  forall n,
    digit_span s = (s, EmptyString) -> 0 <= n ->
    decimal_from n s <= strconv.maxUint64 ->
    strconv.ParseUint_loop s n = inr (decimal_from n s).
Proof.
  induction s as [|c r IH]; intros n Hd Hn Hmax; simpl; [reflexivity|].
  simpl in Hd. destruct (is_digit c) eqn:Hc; [|discriminate].
  destruct (digit_span r) as [d' rest'] eqn:Hr. inversion Hd. subst.
  pose proof (digit_value _ Hc) as Hv. simpl in Hmax.
  pose proof (decimal_from_le r (n * 10 + (byte_val c - 48)) Hr
                ltac:(lia)) as Hle.
  unfold strconv.maxUint64 in *.
  change (2 ^ 64 - 1) with 18446744073709551615 in *.
  change (2 ^ 64) with 18446744073709551616.
  change (18446744073709551615 / 10 + 1) with 1844674407370955162.
  destruct (1844674407370955162 <=? n) eqn:Hcut;
    [apply Z.leb_le in Hcut; lia|].
  rewrite Z.mod_small by lia.
  destruct (n * 10 + (byte_val c - 48) <? n * 10) eqn:H1;
    [apply Z.ltb_lt in H1; lia|].
  destruct (18446744073709551615 <? n * 10 + (byte_val c - 48)) eqn:H2;
    [apply Z.ltb_lt in H2; lia|].
  cbn [orb]. apply IH; auto; lia.
Qed.

Lemma ParseInt_decimal (c : ascii) (r : string) :
  digit_span (String c r) = (String c r, EmptyString) ->
  decimal (String c r) <= MaxInt ->
  strconv.ParseInt (String c r) = inr (decimal (String c r)).
Proof.
  intros Hd Hmax. unfold strconv.ParseInt.
  assert (Hc : is_digit c = true)
    by (simpl in Hd; destruct (is_digit c); [reflexivity|discriminate]).
  destruct (digit_no_sign _ Hc) as [-> ->].
  unfold strconv.ParseUint, decimal in *. unfold MaxInt in Hmax.
  pose proof (decimal_from_le _ 0 Hd ltac:(lia)) as H0.
  rewrite ParseUint_loop_decimal;
    [|exact Hd|lia|unfold strconv.maxUint64; lia].
  change (2 ^ 63) with 9223372036854775808 in *.
  destruct (9223372036854775808 <=? _) eqn:Hr; [apply Z.leb_le in Hr; lia|].
  cbn [negb andb]. f_equal. unfold strconv.int64.
  change (2 ^ 63) with 9223372036854775808.
  change (2 ^ 64) with 18446744073709551616.
  rewrite Z.mod_small by lia. lia.
Qed.

(** A digit is no space: [SkipSpace] stays before it. *)
Lemma SkipSpace_digit (c : ascii) (r : string) :
  is_digit c = true -> fmt.SkipSpace (String c r) = inr (String c r).
Proof.
  intros Hc. unfold fmt.SkipSpace. cbn [len String.length fmt.SkipSpace_loop].
  destruct c as [[] [] [] [] [] [] [] []]; try discriminate; reflexivity.
Qed.

Lemma mem_digits_not_digit (rest : string) :
  match rest with
  | String c _ => is_digit c = false
  | EmptyString => True
  end ->
  match rest with
  | String c _ => fmt.mem c fmt.digits = false
  | EmptyString => True
  end.
Proof.
  destruct rest as [|c r]; [trivial|].
  intros H. rewrite mem_digits. exact H.
Qed.

(** [%d] on digits that write a number within the range of [int]. *)
Lemma verb_d_digits (d rest : string) :
  digit_span d = (d, EmptyString) -> d <> EmptyString ->
  decimal d <= MaxInt ->
  match rest with
  | String c _ => is_digit c = false
  | EmptyString => True
  end ->
  fmt.verb_d (d ++ rest) = inr (decimal d, rest).
Proof.
  intros Hd Hne Hmax Hrest.
  destruct d as [|c r]; [congruence|].
  assert (Hc : is_digit c = true)
    by (simpl in Hd; destruct (is_digit c); [reflexivity|discriminate]).
  unfold fmt.verb_d, fmt.scanInt. cbn [String.append].
  rewrite !SkipSpace_digit by exact Hc.
  unfold fmt.accept.
  assert (Hs : fmt.mem c fmt.sign = false).
  { destruct (digit_no_sign _ Hc) as [H1 H2]. simpl. rewrite H1, H2. reflexivity. }
  rewrite Hs. unfold fmt.scanNumber.
  change (String c (r ++ rest)) with (String c r ++ rest)%string.
  rewrite (accept_all_digits _ _ Hd (mem_digits_not_digit _ Hrest)).
  cbn [String.append]. rewrite (ParseInt_decimal _ _ Hd Hmax). reflexivity.
Qed.

Lemma literal_dot_here (r : string) :
  fmt.literal_dot (String "." r) = inr r.
Proof. reflexivity. Qed.

(** A version written [MAJOR.MINOR] with components within the range of
    [int] scans to its components. *)
Lemma Sscanf_components (v : string) (major minor : Z) :
  version_components v = Some (major, minor) ->
  major <= MaxInt -> minor <= MaxInt ->
  fmt.Sscanf v 0 0 = (major, minor, None).
Proof.
  unfold version_components.
  destruct (digit_span v) as [a rest] eqn:Ha.
  destruct a as [|a0 a']; [discriminate|].
  destruct rest as [|dot r]; [discriminate|].
  destruct (Ascii.eqb dot ".") eqn:Hdot; [|discriminate].
  apply Ascii.eqb_eq in Hdot. subst dot.
  destruct (digit_span r) as [b rest'] eqn:Hb.
  destruct b as [|b0 b']; [discriminate|].
  destruct rest' as [|x y]; [|discriminate].
  intros H Hmaj Hmin. inversion H. subst major minor. clear H.
  apply digits_split in Ha. destruct Ha as [-> [Hda _]].
  apply digits_split in Hb. destruct Hb as [-> [Hdb _]].
  unfold fmt.Sscanf.
  rewrite (verb_d_digits (String a0 a') _ Hda ltac:(discriminate) Hmaj)
    by reflexivity.
  rewrite literal_dot_here.
  rewrite (verb_d_digits (String b0 b') EmptyString Hdb ltac:(discriminate) Hmin)
    by exact I.
  reflexivity.
Qed.

(** C2, as it is stated, fails: the payload
    [{"eventVersion":"1.9223372036854775808"}] is well-formed JSON of the
    expected shape, its major is 1 and its minor is above 8, and the
    extraction fails, since the minor does not fit an [int]. *)
Lemma C2_counterexample :
  ~ (forall data v minor,
        json.parse data = Some v ->
        expected_shape v = true ->
        version_components (EventVersion (payload_details v)) = Some (1, minor) ->
        8 <= minor ->
        succeeds_with (ExtractUserDetails (Some data)) (payload_details v)).
Proof.
  intros H.
  specialize (H (json_text "{'eventVersion':'1.9223372036854775808'}")
                (json.Object [("eventVersion", json.Str "1.9223372036854775808")])
                9223372036854775808 eq_refl eq_refl eq_refl ltac:(lia)).
  vm_compute in H. discriminate.
Qed.

(** C2, amended.  For a payload that is well-formed JSON of the expected
    shape and whose version is written [MAJOR.MINOR] with major 1 and a minor
    from 8 to the largest [int], the extraction succeeds and returns the
    fields of the payload; the payload of the scenario gives version ["1.9"],
    account ["123456789012"], region ["us-east-1"], event ["evt-1"] and an
    empty error code. *)
Theorem C2_extraction_returns_payload_fields :
  (forall data v minor,
      json.parse data = Some v ->
      expected_shape v = true ->
      version_components (EventVersion (payload_details v)) = Some (1, minor) ->
      8 <= minor <= MaxInt ->
      succeeds_with (ExtractUserDetails (Some data)) (payload_details v))
  /\ succeeds_with (ExtractUserDetails (Some payload_1_9))
       {| EventVersion := "1.9";
          UserIdentity :=
            {| AccountId := "123456789012";
               SessionContext := zero_sessionContext |};
          EventRegion := "us-east-1";
          EventId := "evt-1";
          ErrorCode := "" |}.
Proof.
  split; [|reflexivity].
  intros data v minor Hparse Hshape Hver [Hmin Hmax].
  unfold succeeds_with.
  apply Sscanf_components in Hver; [|unfold MaxInt; lia|exact Hmax].
  rewrite (ExtractUserDetails_scanned _ _ _ _
             (Unmarshal_shaped _ _ Hparse Hshape) Hver).
  replace (minor <? 8) with false by (symmetry; apply Z.ltb_ge; exact Hmin).
  reflexivity.
Qed.

Lemma C2_witness :
  succeeds_with (ExtractUserDetails (Some payload_1_9))
    (payload_details
       (json.Object
          [("eventVersion", json.Str "1.9");
           ("userIdentity", json.Object [("accountId", json.Str "123456789012")]);
           ("awsRegion", json.Str "us-east-1");
           ("eventID", json.Str "evt-1");
           ("errorCode", json.Str "")])).
Proof.
  refine (proj1 C2_extraction_returns_payload_fields payload_1_9 _ 9
            eq_refl eq_refl eq_refl _).
  unfold MaxInt. lia.
Defined.

(** *** The bounds of the readers are enough

    The readers of [json] and of [fmt] take a bound on the number of their
    steps.  Each step reads at least one byte: beyond the bound that the model
    gives them, a larger bound does not change what they return. *)

Lemma skip_space_le (s : string) : (len (json.skip_space s) <= len s)%nat.
Proof.
  induction s as [|c r IH]; simpl; [lia|].
  destruct (json.isSpace c); unfold len in *; simpl; lia.
Qed.

Lemma len_app (a b : string) : len (a ++ b)%string = (len a + len b)%nat.
Proof. unfold len. induction a as [|c r IH]; simpl; [reflexivity|]. lia. Qed.

Lemma digits_len (s d rest : string) :
  digit_span s = (d, rest) -> len s = (len d + len rest)%nat.
Proof.
  intros H. apply digits_split in H. destruct H as [-> _]. apply len_app.
Qed.

Lemma digits1_len (s d rest : string) :
  json.digits1 s = Some (d, rest) -> (len rest <= len s)%nat.
Proof.
  unfold json.digits1. destruct (digit_span s) as [d' r'] eqn:H.
  apply digits_len in H. destruct d'; [discriminate|].
  intros E. inversion E. subst. lia.
Qed.

Lemma fraction_len (s f rest : string) :
  json.fraction s = Some (f, rest) -> (len rest <= len s)%nat.
Proof.
  unfold json.fraction. destruct s as [|c r].
  - intros H. inversion H. lia.
  - destruct (Ascii.eqb c ".").
    + destruct (json.digits1 r) as [[d r']|] eqn:H; [|discriminate].
      apply digits1_len in H. intros E. inversion E. subst.
      unfold len in *. simpl. lia.
    + intros E. inversion E. lia.
Qed.

Lemma exponent_len (s e rest : string) :
  json.exponent s = Some (e, rest) -> (len rest <= len s)%nat.
Proof.
  unfold json.exponent. destruct s as [|c r].
  - intros H. inversion H. lia.
  - destruct (Ascii.eqb c "e" || Ascii.eqb c "E").
    + destruct r as [|g r'].
      * destruct (json.digits1 EmptyString) as [[d r1]|] eqn:H; [|discriminate].
        apply digits1_len in H. intros E. inversion E. subst.
        unfold len in *. simpl in *. lia.
      * destruct (Ascii.eqb g "+" || Ascii.eqb g "-").
        -- destruct (json.digits1 r') as [[d r1]|] eqn:H; [|discriminate].
           apply digits1_len in H. intros E. inversion E. subst.
           unfold len in *. simpl in *. lia.
        -- destruct (json.digits1 (String g r')) as [[d r1]|] eqn:H;
             [|discriminate].
           apply digits1_len in H. intros E. inversion E. subst.
           unfold len in *. simpl in *. lia.
    + intros E. inversion E. lia.
Qed.

Lemma number_lit_shorter (s l rest : string) :
  json.number_lit s = Some (l, rest) -> (len rest < len s)%nat.
Proof.
  unfold json.number_lit.
  assert (Hpart : forall c r i s2,
             (if Ascii.eqb c "0" then Some (String c EmptyString, r)
              else if is_digit c
                   then let '(d, rest0) := digit_span r in Some (String c d, rest0)
                   else None) = Some (i, s2) ->
             (len s2 <= len r)%nat).
  { intros c r i s2. destruct (Ascii.eqb c "0").
    - intros E. inversion E. lia.
    - destruct (is_digit c); [|discriminate].
      destruct (digit_span r) as [d r0] eqn:H. apply digits_len in H.
      intros E. inversion E. subst. lia. }
  destruct s as [|c r]; [discriminate|].
  destruct (Ascii.eqb c "-").
  - destruct r as [|c' r']; [discriminate|].
    destruct (if Ascii.eqb c' "0" then _ else _) as [[i s2]|] eqn:Hi;
      [|discriminate].
    apply Hpart in Hi.
    destruct (json.fraction s2) as [[f s3]|] eqn:Hf; [|discriminate].
    apply fraction_len in Hf.
    destruct (json.exponent s3) as [[e s4]|] eqn:He; [|discriminate].
    apply exponent_len in He. intros E. inversion E. subst.
    unfold len in *. simpl. lia.
  - destruct (if Ascii.eqb c "0" then _ else _) as [[i s2]|] eqn:Hi;
      [|discriminate].
    apply Hpart in Hi.
    destruct (json.fraction s2) as [[f s3]|] eqn:Hf; [|discriminate].
    apply fraction_len in Hf.
    destruct (json.exponent s3) as [[e s4]|] eqn:He; [|discriminate].
    apply exponent_len in He. intros E. inversion E. subst.
    unfold len in *. simpl. lia.
Qed.

Lemma lit_prefix_len (w : string) :
  forall s rest, json.lit_prefix w s = Some rest ->
                 len s = (len w + len rest)%nat.
Proof.
  induction w as [|a w IH]; intros s rest; simpl.
  - intros H. inversion H. reflexivity.
  - destruct s as [|b s']; [discriminate|].
    destruct (Ascii.eqb a b); [|discriminate].
    intros H. apply IH in H. unfold len in *. simpl. lia.
Qed.

Lemma getu4_len (s r : string) (x : Z) :
  json.getu4 s = Some (x, r) -> len s = (6 + len r)%nat.
Proof.
  unfold json.getu4.
  destruct s as [|c0 [|c1 [|c2 [|c3 [|c4 [|c5 t]]]]]]; try discriminate.
  destruct (_ && _); [|discriminate].
  destruct (json.hex_val c2), (json.hex_val c3), (json.hex_val c4),
    (json.hex_val c5); try discriminate.
  intros H. inversion H. reflexivity.
Qed.

Lemma prepend_some (t : string) (r : option (string * string))
  (u rest : string) :
  json.prepend t r = Some (u, rest) -> exists u', r = Some (u', rest).
Proof.
  destruct r as [[u' rest']|]; simpl; [|discriminate].
  intros H. inversion H. eauto.
Qed.

Lemma drop_rune_shorter (c : ascii) (r : string) :
  (len (drop (snd (utf8.DecodeRune (String c r))) (String c r)) <= len r)%nat.
Proof.
  pose proof (DecodeRune_size c r) as H.
  destruct (snd (utf8.DecodeRune (String c r))) as [|n]; [lia|].
  simpl. apply len_drop.
Qed.

(** A string literal ends after at least its closing quote. *)
Lemma string_lit_shorter (n : nat) :
  forall s t rest,
    json.string_lit n s = Some (t, rest) -> (len rest < len s)%nat.
Proof.
  induction n as [|n IH]; intros s t rest; [discriminate|].
  cbn [json.string_lit].
  destruct s as [|c r]; [discriminate|].
  assert (Hrec : forall x s' u,
             (len s' <= len r)%nat ->
             json.prepend x (json.string_lit n s') = Some (u, rest) ->
             (len rest < len (String c r))%nat).
  { intros x s' u Hle H. apply prepend_some in H. destruct H as [u' H].
    apply IH in H. unfold len in *. simpl. lia. }
  destruct (byte_val c =? 34).
  { intros H. inversion H. unfold len. simpl. lia. }
  destruct (byte_val c =? 92).
  { destruct r as [|e r']; [discriminate|].
    destruct (Ascii.eqb e "u").
    - destruct (json.getu4 (String c (String e r'))) as [[rr r1]|] eqn:H1;
        [|discriminate].
      apply getu4_len in H1.
      assert (Hr1 : (len r1 <= len (String e r'))%nat)
        by (unfold len in *; simpl in *; lia).
      destruct (json.IsSurrogate rr).
      + destruct (json.getu4 r1) as [[rr1 r2]|] eqn:H2.
        * apply getu4_len in H2.
          destruct (negb (_ =? _)); apply Hrec; lia.
        * apply Hrec; lia.
      + apply Hrec; lia.
    - destruct (json.escape e); [|discriminate].
      apply Hrec. unfold len. simpl. lia. }
  destruct (byte_val c <? 32); [discriminate|].
  destruct (byte_val c <? 128).
  { apply Hrec. lia. }
  pose proof (drop_rune_shorter c r) as Hd.
  destruct (utf8.DecodeRune (String c r)) as [rr size]. simpl in Hd.
  apply Hrec. exact Hd.
Qed.

(** A larger bound does not change a string literal. *)
Lemma string_lit_bound (n : nat) :
  forall m s, (len s <= n)%nat -> (len s <= m)%nat ->
              json.string_lit n s = json.string_lit m s.
Proof.
  induction n as [|n IH]; intros m s Hn Hm.
  - destruct s; [|unfold len in Hn; simpl in Hn; lia].
    destruct m; reflexivity.
  - destruct m as [|m].
    { destruct s; [reflexivity|unfold len in Hm; simpl in Hm; lia]. }
    cbn [json.string_lit].
    destruct s as [|c r]; [reflexivity|].
    assert (Hlen : len (String c r) = S (len r)) by reflexivity.
    assert (Hrec : forall s', (len s' <= len r)%nat ->
                              json.string_lit n s' = json.string_lit m s')
      by (intros s' Hle; apply IH; lia).
    destruct (byte_val c =? 34); [reflexivity|].
    destruct (byte_val c =? 92).
    { destruct r as [|e r']; [reflexivity|].
      destruct (Ascii.eqb e "u").
      - destruct (json.getu4 (String c (String e r'))) as [[rr r1]|] eqn:H1;
          [|reflexivity].
        apply getu4_len in H1.
        assert (Hr1 : (len r1 <= len (String e r'))%nat)
          by (unfold len in *; simpl in *; lia).
        destruct (json.IsSurrogate rr).
        + destruct (json.getu4 r1) as [[rr1 r2]|] eqn:H2.
          * apply getu4_len in H2.
            destruct (negb (_ =? _)); rewrite Hrec by lia; reflexivity.
          * rewrite Hrec by lia. reflexivity.
        + rewrite Hrec by lia. reflexivity.
      - destruct (json.escape e); [|reflexivity].
        rewrite Hrec by (unfold len; simpl; lia). reflexivity. }
    destruct (byte_val c <? 32); [reflexivity|].
    destruct (byte_val c <? 128).
    { rewrite Hrec by lia. reflexivity. }
    pose proof (drop_rune_shorter c r) as Hd.
    destruct (utf8.DecodeRune (String c r)) as [rr size]. simpl in Hd.
    rewrite Hrec by exact Hd. reflexivity.
Qed.

Ltac lens := unfold len in *; simpl in *; lia.

Ltac skipped s c r H :=
  let Hle := fresh "Hle" in
  pose proof (skip_space_le s) as Hle;
  destruct (json.skip_space s) as [|c r] eqn:H.

(** A value, the members of an object and the elements of an array end
    after at least one byte. *)
Lemma parse_shorter (n : nat) :
  (forall d s v rest,
      json.parse_value n d s = Some (v, rest) -> (len rest < len s)%nat)
  /\ (forall d s acc v rest,
         json.parse_members n d s acc = Some (v, rest) ->
         (len rest < len s)%nat)
  /\ (forall d s acc v rest,
         json.parse_elems n d s acc = Some (v, rest) ->
         (len rest < len s)%nat).
Proof.
  induction n as [|n [IHv [IHm IHe]]];
    [repeat split; intros; discriminate|].
  split; [|split].
  - intros d s v rest. cbn [json.parse_value].
    destruct s as [|c r]; [discriminate|].
    destruct (byte_val c =? 123).
    { destruct (json.maxNestingDepth <=? d)%nat; [discriminate|].
      skipped r c1 r1 Hsk; [discriminate|].
      destruct (byte_val c1 =? 125).
      - intros H. inversion H. subst. lens.
      - intros H. apply IHm in H. lens. }
    destruct (byte_val c =? 91).
    { destruct (json.maxNestingDepth <=? d)%nat; [discriminate|].
      skipped r c1 r1 Hsk; [discriminate|].
      destruct (byte_val c1 =? 93).
      - intros H. inversion H. subst. lens.
      - intros H. apply IHe in H. lens. }
    destruct (byte_val c =? 34).
    { destruct (json.string_lit (len r) r) as [[t r1]|] eqn:Hl; [|discriminate].
      apply string_lit_shorter in Hl. intros H. inversion H. subst. lens. }
    destruct ((byte_val c =? 45) || is_digit c).
    { destruct (json.number_lit (String c r)) as [[l r1]|] eqn:Hl;
        [|discriminate].
      apply number_lit_shorter in Hl. intros H. inversion H. subst. exact Hl. }
    destruct (byte_val c =? 116).
    { destruct (json.lit_prefix "true" (String c r)) as [r1|] eqn:Hl;
        [|discriminate].
      apply lit_prefix_len in Hl. intros H. inversion H. subst. lens. }
    destruct (byte_val c =? 102).
    { destruct (json.lit_prefix "false" (String c r)) as [r1|] eqn:Hl;
        [|discriminate].
      apply lit_prefix_len in Hl. intros H. inversion H. subst. lens. }
    destruct (byte_val c =? 110); [|discriminate].
    destruct (json.lit_prefix "null" (String c r)) as [r1|] eqn:Hl;
      [|discriminate].
    apply lit_prefix_len in Hl. intros H. inversion H. subst. lens.
  - intros d s acc v rest. cbn [json.parse_members].
    destruct s as [|q r]; [discriminate|].
    destruct (byte_val q =? 34); [|discriminate].
    destruct (json.string_lit (len r) r) as [[key r1]|] eqn:Hl; [|discriminate].
    apply string_lit_shorter in Hl.
    skipped r1 colon r2 Hs1; [discriminate|].
    destruct (byte_val colon =? 58); [|discriminate].
    pose proof (skip_space_le r2) as Hle2.
    destruct (json.parse_value n d (json.skip_space r2)) as [[v' r3]|] eqn:Hv;
      [|discriminate].
    apply IHv in Hv.
    skipped r3 d' r4 Hs3; [discriminate|].
    pose proof (skip_space_le r4) as Hle4.
    destruct (byte_val d' =? 44).
    + intros H. apply IHm in H. lens.
    + destruct (byte_val d' =? 125); [|discriminate].
      intros H. inversion H. subst. lens.
  - intros d s acc v rest. cbn [json.parse_elems].
    destruct (json.parse_value n d s) as [[v' r1]|] eqn:Hv; [|discriminate].
    apply IHv in Hv.
    skipped r1 d' r2 Hs1; [discriminate|].
    pose proof (skip_space_le r2) as Hle2.
    destruct (byte_val d' =? 44).
    + intros H. apply IHe in H. lens.
    + destruct (byte_val d' =? 93); [|discriminate].
      intros H. inversion H. subst. lens.
Qed.

(** Beyond twice the length of the input, a larger bound does not change
    what is read. *)
Lemma parse_bound (n : nat) :
  (forall m d s,
      (2 * len s < n)%nat -> (2 * len s < m)%nat ->
      json.parse_value n d s = json.parse_value m d s)
  /\ (forall m d s acc,
         (2 * len s < n)%nat -> (2 * len s < m)%nat ->
         json.parse_members n d s acc = json.parse_members m d s acc)
  /\ (forall m d s acc,
         (2 * len s + 1 < n)%nat -> (2 * len s + 1 < m)%nat ->
         json.parse_elems n d s acc = json.parse_elems m d s acc).
Proof.
  induction n as [|n [IHv [IHm IHe]]]; [repeat split; intros; lia|].
  split; [|split].
  - intros m d s Hn Hm. destruct m as [|m]; [lia|].
    cbn [json.parse_value].
    destruct s as [|c r]; [reflexivity|].
    destruct (byte_val c =? 123).
    { destruct (json.maxNestingDepth <=? d)%nat; [reflexivity|].
      skipped r c1 r1 Hsk; [reflexivity|].
      destruct (byte_val c1 =? 125); [reflexivity|].
      apply IHm; lens. }
    destruct (byte_val c =? 91); [|reflexivity].
    destruct (json.maxNestingDepth <=? d)%nat; [reflexivity|].
    skipped r c1 r1 Hsk; [reflexivity|].
    destruct (byte_val c1 =? 93); [reflexivity|].
    apply IHe; lens.
  - intros m d s acc Hn Hm. destruct m as [|m]; [lia|].
    cbn [json.parse_members].
    destruct s as [|q r]; [reflexivity|].
    destruct (byte_val q =? 34); [|reflexivity].
    destruct (json.string_lit (len r) r) as [[key r1]|] eqn:Hl; [|reflexivity].
    apply string_lit_shorter in Hl.
    skipped r1 colon r2 Hs1; [reflexivity|].
    destruct (byte_val colon =? 58); [|reflexivity].
    pose proof (skip_space_le r2) as Hle2.
    rewrite (IHv m d (json.skip_space r2)) by lens.
    destruct (json.parse_value m d (json.skip_space r2)) as [[v' r3]|] eqn:Hv;
      [|reflexivity].
    apply (proj1 (parse_shorter m)) in Hv.
    skipped r3 d' r4 Hs3; [reflexivity|].
    pose proof (skip_space_le r4) as Hle4.
    destruct (byte_val d' =? 44); [|reflexivity].
    apply IHm; lens.
  - intros m d s acc Hn Hm. destruct m as [|m]; [lia|].
    cbn [json.parse_elems].
    rewrite (IHv m d s) by lia.
    destruct (json.parse_value m d s) as [[v' r1]|] eqn:Hv; [|reflexivity].
    apply (proj1 (parse_shorter m)) in Hv.
    skipped r1 d' r2 Hs1; [reflexivity|].
    pose proof (skip_space_le r2) as Hle2.
    destruct (byte_val d' =? 44); [|reflexivity].
    apply IHe; lens.
Qed.

(** The bound of [json.parse] is enough: no larger bound reads the text
    otherwise. *)
Lemma parse_bound_enough (data : string) (n : nat) :
  (2 * len data < n)%nat ->
  json.parse_value n 0 (json.skip_space data)
  = json.parse_value (S (2 * len data)) 0 (json.skip_space data).
Proof.
  intros Hn. pose proof (skip_space_le data).
  apply (proj1 (parse_bound n)); lia.
Qed.

(** The bound of [SkipSpace] is enough. *)
Lemma SkipSpace_bound (n : nat) :
  forall m s, (len s <= n)%nat -> (len s <= m)%nat ->
              fmt.SkipSpace_loop n s = fmt.SkipSpace_loop m s.
Proof.
  induction n as [|n IH]; intros m s Hn Hm.
  - destruct s; [|lens]. destruct m; reflexivity.
  - destruct m as [|m]; [destruct s; [reflexivity|lens]|].
    cbn [fmt.SkipSpace_loop].
    destruct (fmt.getRune s) as [[x rest]|] eqn:Hget; [|reflexivity].
    apply getRune_shorter in Hget.
    rewrite (IH m rest) by lia. reflexivity.
Qed.

(** * Further properties

    ** The event detail extractor *)

(** X1.  [ExtractUserDetails] returns details without an error exactly when
    its input is a non-empty text that [json.Unmarshal] decodes without an
    error into these details and whose version scans to major 1 and a minor
    of 8 or more: details that come without an error are within the window. *)
Theorem X1_success_is_within_the_window :
  forall cloudTrailEvent details,
    ExtractUserDetails cloudTrailEvent = Ret (Some details, None)
    <-> exists data minor,
        cloudTrailEvent = Some data
        /\ data <> ""
        /\ Unmarshal data zero = (details, None)
        /\ fmt.Sscanf (EventVersion details) 0 0 = (1, minor, None)
        /\ 8 <= minor.
Proof.
  intros p d. split.
  - destruct p as [data|]; [|discriminate].
    destruct data as [|c r]; [discriminate|].
    rewrite ExtractUserDetails_some by discriminate.
    destruct (Unmarshal _ _) as [res [e|]] eqn:HU; [discriminate|].
    destruct (fmt.Sscanf _ _ _) as [[a b] [e|]] eqn:HS; [discriminate|].
    destruct (negb (a =? supportedEventVersionMajor)
              || (b <? minSupportedEventVersionMinor)) eqn:Hw; [discriminate|].
    intros H. inversion H. subst res.
    apply orb_false_iff in Hw. destruct Hw as [Ha Hb].
    apply negb_false_iff, Z.eqb_eq in Ha. apply Z.ltb_ge in Hb.
    unfold supportedEventVersionMajor in Ha.
    unfold minSupportedEventVersionMinor in Hb. subst a.
    exists (String c r), b. repeat split; auto. discriminate.
  - intros [data [minor [-> [Hne [HU [HS Hm]]]]]].
    rewrite (ExtractUserDetails_scanned _ _ _ _ HU HS).
    replace (minor <? 8) with false by (symmetry; apply Z.ltb_ge; exact Hm).
    reflexivity.
Qed.

Lemma X1_witness :
  exists data minor,
    Some payload_1_9 = Some data
    /\ data <> ""
    /\ Unmarshal data zero
       = (payload_details
            (json.Object
               [("eventVersion", json.Str "1.9");
                ("userIdentity",
                 json.Object [("accountId", json.Str "123456789012")]);
                ("awsRegion", json.Str "us-east-1");
                ("eventID", json.Str "evt-1");
                ("errorCode", json.Str "")]), None)
    /\ fmt.Sscanf "1.9" 0 0 = (1, minor, None)
    /\ 8 <= minor.
Proof.
  exact (proj1 (X1_success_is_within_the_window (Some payload_1_9) _) eq_refl).
Defined.

(** X2.  A non-empty text that is no JSON fails with the decode error around
    a syntax error; a JSON text whose value is a boolean, a number, a string
    or an array fails with the decode error around a type error that names
    this kind; the text [null] decodes to the zero value and fails with the
    version-parse error. *)
Theorem X2_decode_errors :
  forall data,
    data <> "" ->
    (json.parse data = None ->
     ExtractUserDetails (Some data)
     = Ret (Some zero, Some (DecodeError SyntaxError)))
    /\ (forall v kind,
           json.parse data = Some v ->
           match v with
           | json.Bool _ => kind = "bool"
           | json.Number _ => kind = "number"
           | json.Str _ => kind = "string"
           | json.Array _ => kind = "array"
           | _ => False
           end ->
           ExtractUserDetails (Some data)
           = Ret (Some zero, Some (DecodeError (UnmarshalTypeError kind))))
    /\ (json.parse data = Some json.Null ->
        ExtractUserDetails (Some data)
        = Ret (Some zero, Some (VersionParseError EOF))).
Proof.
  intros data Hne. rewrite ExtractUserDetails_some by exact Hne.
  unfold Unmarshal. repeat split.
  - intros ->. reflexivity.
  - intros v kind -> Hk. destruct v; try contradiction; subst kind; reflexivity.
  - intros ->. reflexivity.
Qed.

Lemma X2_witness :
  ExtractUserDetails (Some "{")
  = Ret (Some zero, Some (DecodeError SyntaxError))
  /\ ExtractUserDetails (Some "[1, 2]")
     = Ret (Some zero, Some (DecodeError (UnmarshalTypeError "array")))
  /\ ExtractUserDetails (Some "null")
     = Ret (Some zero, Some (VersionParseError EOF)).
Proof.
  split; [|split].
  - exact (proj1 (X2_decode_errors "{" ltac:(discriminate)) eq_refl).
  - exact (proj1 (proj2 (X2_decode_errors "[1, 2]" ltac:(discriminate)))
             _ "array" eq_refl eq_refl).
  - exact (proj2 (proj2 (X2_decode_errors "null" ltac:(discriminate))) eq_refl).
Defined.

(** A member whose key names no field leaves the struct as it is. *)
Lemma members_unknown {T : Type} (names : list string)
  (store : string -> json.value -> T -> option error -> T * option error)
  (k : string) (v : json.value) (ms1 ms2 : list (string * json.value)) :
  json.field names k = None ->
  forall cur saved,
    json.members names store (ms1 ++ (k, v) :: ms2) cur saved
    = json.members names store (ms1 ++ ms2) cur saved.
Proof.
  intros Hk. induction ms1 as [|[k1 v1] ms1 IH]; intros cur saved.
  - cbn [app json.members]. rewrite Hk. reflexivity.
  - cbn [app json.members].
    destruct (json.field names k1) as [f|]; [|apply IH].
    destruct (store f v1 cur saved) as [cur' saved']. apply IH.
Qed.

(** X3.  Unrecognised members are ignored: two payloads that differ by one
    member, whose key names no field of [RawEventDetails] even under case
    folding, give the same result, whatever the value of this member. *)
Theorem X3_unknown_member_ignored :
  forall data1 data2 ms1 ms2 k v,
    json.parse data1 = Some (json.Object (ms1 ++ (k, v) :: ms2)) ->
    json.parse data2 = Some (json.Object (ms1 ++ ms2)) ->
    json.field names_RawEventDetails k = None ->
    ExtractUserDetails (Some data1) = ExtractUserDetails (Some data2).
Proof.
  intros data1 data2 ms1 ms2 k v H1 H2 Hk.
  assert (Hn1 : data1 <> "") by (intros ->; discriminate).
  assert (Hn2 : data2 <> "") by (intros ->; discriminate).
  rewrite !ExtractUserDetails_some by assumption.
  unfold Unmarshal. rewrite H1, H2. cbn [json.store_struct].
  rewrite (members_unknown _ _ _ _ _ _ Hk). reflexivity.
Qed.

Lemma X3_witness :
  ExtractUserDetails
    (Some (json_text "{'eventVersion':'1.9','eventName':['x',{}],'eventID':'e'}"))
  = ExtractUserDetails (Some (json_text "{'eventVersion':'1.9','eventID':'e'}")).
Proof.
  exact (X3_unknown_member_ignored
           (json_text "{'eventVersion':'1.9','eventName':['x',{}],'eventID':'e'}")
           (json_text "{'eventVersion':'1.9','eventID':'e'}")
           [("eventVersion", json.Str "1.9")] [("eventID", json.Str "e")]
           "eventName" (json.Array [json.Str "x"; json.Object []])
           eq_refl eq_refl eq_refl).
Defined.

(** ** The event paginator *)

Lemma received_sends (rs : list EventResult) : received (map send rs) = rs.
Proof. induction rs as [|r rs IH]; simpl; [reflexivity|]. rewrite IH. reflexivity. Qed.

Lemma state_defer_close {Client : Type} (g : goroutine Client) :
  state (defer_close g) = state g.
Proof. unfold defer_close. destruct (state g) eqn:E; simpl; congruence. Qed.

Lemma alllookupEvents_defer_close {Client : Type} (g : goroutine Client) :
  alllookupEvents (defer_close g) = alllookupEvents g.
Proof. unfold defer_close. destruct (state g); reflexivity. Qed.

(** The loop only sends. *)
Lemma loop_sends {Config Client : Type} `{cloudtrail.Service Config Client}
  (fuel : nat) :
  forall (p : cloudtrail.LookupEventsPaginator Client)
         (all : list types.Event) (rs : list EventResult),
  exists rs', pageChan (loop fuel p all (map send rs)) = map send (rs ++ rs').
Proof.
  induction fuel as [|fuel IH]; intros p all rs; simpl.
  - exists []. rewrite app_nil_r. reflexivity.
  - destruct (cloudtrail.HasMorePages p); simpl.
    2:{ exists []. rewrite app_nil_r. reflexivity. }
    destruct (cloudtrail.NextPage p) as [[[out|] [e|]] p']; simpl.
    + change [send {| AWSEvent := []; errors := Some e |}]
        with (map send [{| AWSEvent := []; errors := Some e |}]).
      change [send {| AWSEvent := cloudtrail.Events out; errors := None |}]
        with (map send [{| AWSEvent := cloudtrail.Events out; errors := None |}]).
      rewrite <- !map_app.
      destruct (IH p' (all ++ cloudtrail.Events out)
                  ((rs ++ [{| AWSEvent := []; errors := Some e |}])
                   ++ [{| AWSEvent := cloudtrail.Events out; errors := None |}]))
        as [rs' Hrs].
      rewrite Hrs. eexists. rewrite <- !app_assoc. reflexivity.
    + change [send {| AWSEvent := cloudtrail.Events out; errors := None |}]
        with (map send [{| AWSEvent := cloudtrail.Events out; errors := None |}]).
      rewrite <- map_app.
      destruct (IH p' (all ++ cloudtrail.Events out)
                  (rs ++ [{| AWSEvent := cloudtrail.Events out; errors := None |}]))
        as [rs' Hrs].
      rewrite Hrs. eexists. rewrite <- app_assoc. reflexivity.
    + exists [{| AWSEvent := []; errors := Some e |}].
      rewrite map_app. reflexivity.
    + exists []. rewrite app_nil_r. reflexivity.
Qed.

(** X4.  The protocol of the channel: in every run, what has happened on
    [pageChan] is the sends of the results received, in order, followed by
    one closure when the goroutine has ended (returned or panicked) and by
    nothing while it runs.  Nothing is sent after the closure and the channel
    is not closed twice. *)
Theorem X4_channel_protocol :
  forall (Config Client : Type) (S : cloudtrail.Service Config Client)
         (a : EventAPI Client) (s : string) (missing : Period) (fuel : nat),
    let g := GetEvents a s missing fuel in
    pageChan g
    = map send (received (pageChan g))
      ++ match state g with
         | Running => []
         | _ => [close]
         end.
Proof.
  intros Config Client S a s missing fuel g. subst g. unfold GetEvents.
  rewrite state_defer_close, received_defer_close.
  match goal with
  | |- context [loop fuel ?p ?all []] =>
      destruct (loop_sends fuel p all []) as [rs Hrs]
  end.
  simpl in Hrs. unfold defer_close.
  destruct (state (loop _ _ _ _)); simpl; rewrite Hrs, received_sends;
    rewrite ?app_nil_r; reflexivity.
Qed.

Lemma loop_accumulates {Config Client : Type}
  `{cloudtrail.Service Config Client} (fuel : nat) :
  forall (p : cloudtrail.LookupEventsPaginator Client)
         (all : list types.Event) (ch : list chan_op),
    all = List.concat (records (received ch)) ->
    alllookupEvents (loop fuel p all ch)
    = List.concat (records (received (pageChan (loop fuel p all ch)))).
Proof.
  induction fuel as [|fuel IH]; intros p all ch Hall; simpl; [exact Hall|].
  destruct (cloudtrail.HasMorePages p); simpl; [|exact Hall].
  destruct (cloudtrail.NextPage p) as [[[out|] [e|]] p']; simpl.
  - apply IH. rewrite !received_app, !records_app, !concat_app. simpl.
    rewrite !app_nil_r. congruence.
  - apply IH. rewrite !received_app, !records_app, !concat_app. simpl.
    rewrite !app_nil_r. congruence.
  - rewrite received_app, records_app, concat_app. simpl.
    rewrite app_nil_r. exact Hall.
  - exact Hall.
Qed.

(** X5.  The slice [alllookupEvents] holds, in every run, the records of the
    pages sent so far, in the order of their sending: it is the concatenation
    of the record sequences received without an error. *)
Theorem X5_alllookupEvents_accumulates :
  forall (Config Client : Type) (S : cloudtrail.Service Config Client)
         (a : EventAPI Client) (s : string) (missing : Period) (fuel : nat),
    let g := GetEvents a s missing fuel in
    alllookupEvents g = List.concat (records (received (pageChan g))).
Proof.
  intros Config Client S a s missing fuel g. subst g. unfold GetEvents.
  rewrite alllookupEvents_defer_close, received_defer_close.
  apply loop_accumulates. reflexivity.
Qed.

(** The paginator of the SDK returns a page without an error or an error
    without a page. *)
Lemma NextPage_cases {Config Client : Type} `{cloudtrail.Service Config Client}
  (p : cloudtrail.LookupEventsPaginator Client) :
  (exists out p', cloudtrail.NextPage p = (Some out, None, p'))
  \/ (exists e p', cloudtrail.NextPage p = (None, Some e, p')).
Proof.
  unfold cloudtrail.NextPage.
  destruct (negb (cloudtrail.HasMorePages p)); [right; eauto|].
  destruct (cloudtrail.LookupEvents _ _) as [[out|e] c]; [left|right]; eauto.
Qed.

Lemma loop_error_last {Config Client : Type}
  `{cloudtrail.Service Config Client} (fuel : nat) :
  forall (p : cloudtrail.LookupEventsPaginator Client)
         (all : list types.Event) (rs : list EventResult),
    Forall (fun r => errors r = None) rs ->
    let g := loop fuel p all (map send rs) in
    exists ok,
      Forall (fun r => errors r = None) ok
      /\ ((received (pageChan g) = ok
           /\ (state g = Running \/ state g = Returned))
          \/ exists e,
              received (pageChan g)
              = ok ++ [{| AWSEvent := []; errors := Some e |}]
              /\ state g = Panicked nil_dereference).
Proof.
  induction fuel as [|fuel IH]; intros p all rs Hrs; simpl.
  - exists rs. rewrite received_sends. auto.
  - destruct (cloudtrail.HasMorePages p); simpl.
    2:{ exists rs. rewrite received_sends. auto. }
    destruct (NextPage_cases p) as [[out [p' Hn]]|[e [p' Hn]]]; rewrite Hn; simpl.
    + change [send {| AWSEvent := cloudtrail.Events out; errors := None |}]
        with (map send [{| AWSEvent := cloudtrail.Events out; errors := None |}]).
      rewrite <- map_app. apply IH.
      apply Forall_app. split; [exact Hrs|]. repeat constructor.
    + exists rs. split; [exact Hrs|]. right. exists e.
      rewrite received_app, received_sends. auto.
Qed.

(** X6.  A failed fetch ends the stream: in every run, the results received
    carry no error, except that the last one may carry one, with no records;
    and the goroutine has panicked on the nil output exactly in this case. *)
Theorem X6_error_result_is_last :
  forall (Config Client : Type) (S : cloudtrail.Service Config Client)
         (a : EventAPI Client) (s : string) (missing : Period) (fuel : nat),
    let g := GetEvents a s missing fuel in
    exists ok,
      Forall (fun r => errors r = None) ok
      /\ ((received (pageChan g) = ok
           /\ (state g = Running \/ state g = Returned))
          \/ exists e,
              received (pageChan g)
              = ok ++ [{| AWSEvent := []; errors := Some e |}]
              /\ state g = Panicked nil_dereference).
Proof.
  intros Config Client S a s missing fuel g. subst g. unfold GetEvents.
  rewrite state_defer_close, received_defer_close.
  match goal with
  | |- context [loop fuel ?p ?all []] =>
      exact (loop_error_last fuel p all [] (Forall_nil _))
  end.
Qed.

Lemma loop_queries (fuel : nat) :
  forall (p : cloudtrail.LookupEventsPaginator scripted)
         (all : list types.Event) (ch : list chan_op),
    cloudtrail.StopOnDuplicateToken (cloudtrail.options p) = false ->
    cloudtrail.Limit (cloudtrail.options p) = 0 ->
    let g := loop fuel p all ch in
    exists sent : list cloudtrail.LookupEventsInput,
      queries (cloudtrail.client (paginator g))
      = queries (cloudtrail.client p) ++ sent
      /\ Forall (fun q =>
                   cloudtrail.StartTime q = cloudtrail.StartTime (cloudtrail.params p)
                   /\ cloudtrail.EndTime q = cloudtrail.EndTime (cloudtrail.params p)
                   /\ cloudtrail.MaxResults q = None) sent
      /\ map cloudtrail.NextToken sent
         = firstn (List.length sent)
             (cloudtrail.nextToken p
              :: map cloudtrail.OutNextToken
                   (outputs (firstn (List.length sent)
                               (script (cloudtrail.client p))))).
Proof.
  induction fuel as [|fuel IH]; intros p all ch Hdup Hlim; simpl.
  - exists []. rewrite app_nil_r. auto.
  - destruct (cloudtrail.HasMorePages p) eqn:Hmore; simpl.
    2:{ exists []. rewrite app_nil_r. auto. }
    unfold cloudtrail.NextPage. rewrite Hmore, Hdup, Hlim. simpl.
    destruct (script (cloudtrail.client p)) as [|[out|e] tl] eqn:Hs; simpl.
    + eexists [_]. simpl. repeat split. repeat constructor.
    + match goal with
      | |- context [loop fuel ?p' ?all' ?ch'] =>
          destruct (IH p' all' ch' Hdup Hlim) as [sent [Hq [Hf Ht]]]
      end.
      simpl in Hq, Hf, Ht.
      eexists (_ :: sent). repeat split.
      * rewrite Hq, <- app_assoc. reflexivity.
      * constructor; [repeat split|exact Hf].
      * simpl. rewrite Ht. reflexivity.
    + eexists [_]. simpl. repeat split. repeat constructor.
Qed.

(** X7.  Every query that the service receives carries the window of the
    call as its start and end times and no limit on the results.  The first
    query carries no token and each later query carries the token that the
    page before it returned: the pages are asked for in the order of the
    cursor. *)
Theorem X7_window_and_cursor :
  forall (cfg : list (cloudtrail.LookupEventsOutput + error)) (w : bool)
         (region s : string) (missing : Period) (fuel : nat),
    let g := GetEvents (NewEventAPI cfg w region) s missing fuel in
    let sent := queries (cloudtrail.client (paginator g)) in
    Forall (fun q =>
              cloudtrail.StartTime q = Some (StartTime missing)
              /\ cloudtrail.EndTime q = Some (EndTime missing)
              /\ cloudtrail.MaxResults q = None) sent
    /\ map cloudtrail.NextToken sent
       = firstn (List.length sent)
           (None :: map cloudtrail.OutNextToken
                      (outputs (firstn (List.length sent) cfg))).
Proof.
  intros cfg w region s missing fuel g sent. subst sent g.
  rewrite scripted_client. unfold GetEvents. simpl.
  rewrite paginator_defer_close.
  match goal with
  | |- context [loop fuel ?p ?all ?ch] =>
      destruct (loop_queries fuel p all ch eq_refl eq_refl)
        as [sent [Hq [Hf Ht]]]
  end.
  simpl in Hq, Hf, Ht. rewrite Hq. split; assumption.
Qed.

(** ** The route table of a subnet *)

Lemma range_associations_set (assocs : list ec2.RouteTableAssociation) :
  Forall (fun assoc => ec2.Main assoc <> None) assocs ->
  network.range_associations assocs = Ret (existsb network.is_main assocs).
Proof.
  induction 1 as [|assoc tl Hm _ IH]; simpl; [reflexivity|].
  unfold network.is_main at 1.
  destruct (ec2.Main assoc) as [[|]|]; simpl; [reflexivity|exact IH|congruence].
Qed.

Lemma range_route_tables_set (rts : list ec2.RouteTable) :
  network.all_set rts ->
  network.range_route_tables rts
  = Ret (option_map network.id_of (find network.has_main rts)).
Proof.
  induction 1 as [|rt tl [Hid Hm] _ IH]; simpl; [reflexivity|].
  rewrite (range_associations_set _ Hm). simpl.
  unfold network.has_main at 1.
  destruct (existsb network.is_main (ec2.Associations rt)); [|exact IH].
  unfold network.id_of. simpl.
  destruct (ec2.RouteTableId rt); [reflexivity|congruence].
Qed.

(** X8.  The default route table of a VPC: when the route tables of the VPC
    are described without an error and the pointers of the answer are set,
    [findDefaultRouteTableForVPC] returns the identifier of the first route
    table, in the order of the answer, that has a main association; when no
    route table has one, it fails with "no default route table found". *)
Theorem X8_default_route_table_is_first_main :
  forall (C : Type) (K : network.Client C) (awsClient : C) (vpcID : string)
         (out : ec2.DescribeRouteTablesOutput),
    network.DescribeRouteTables awsClient (network.by_vpc vpcID)
    = (Some out, None) ->
    network.all_set (ec2.RouteTables out) ->
    network.findDefaultRouteTableForVPC awsClient vpcID
    = Ret match find network.has_main (ec2.RouteTables out) with
          | Some rt => (network.id_of rt, None)
          | None =>
              (EmptyString,
               Some (errorString
                       ("no default route table found for vpc: " ++ vpcID)%string))
          end.
Proof.
  intros C K awsClient vpcID out Hd Hset.
  unfold network.findDefaultRouteTableForVPC.
  change {| ec2.Filters := [ {| ec2.Name := Some "vpc-id"%string;
                                ec2.Values := [vpcID] |} ] |}
    with (network.by_vpc vpcID).
  rewrite Hd. simpl. rewrite (range_route_tables_set _ Hset). simpl.
  destruct (find network.has_main (ec2.RouteTables out)); reflexivity.
Qed.

Lemma X8_witness :
  network.findDefaultRouteTableForVPC example_vpc "vpc-1"
  = Ret ("rtb-main", None).
Proof.
  refine (X8_default_route_table_is_first_main _ _ example_vpc "vpc-1" _
            eq_refl _).
  repeat constructor; discriminate.
Defined.

(** X9.  A subnet with an association of its own uses the route table of
    this association: when the route tables associated to the subnet are
    described without an error and there is one, [FindRouteTableForSubnet]
    returns the identifier of the first, whatever the subnets and the VPC
    are. *)
Theorem X9_associated_route_table_first :
  forall (C : Type) (K : network.Client C) (awsClient : C) (subnetID : string)
         (out : ec2.DescribeRouteTablesOutput) (rt : ec2.RouteTable)
         (tl : list ec2.RouteTable) (id : string),
    network.DescribeRouteTables awsClient (network.by_subnet subnetID)
    = (Some out, None) ->
    ec2.RouteTables out = rt :: tl ->
    ec2.RouteTableId rt = Some id ->
    network.FindRouteTableForSubnet awsClient subnetID = Ret (id, None).
Proof.
  intros C K awsClient subnetID out rt tl id Hd Hrt Hid.
  unfold network.FindRouteTableForSubnet.
  change {| ec2.Filters := [ {| ec2.Name := Some "association.subnet-id"%string;
                                ec2.Values := [subnetID] |} ] |}
    with (network.by_subnet subnetID).
  rewrite Hd. simpl. rewrite Hrt, Hid. reflexivity.
Qed.

Lemma X9_witness :
  network.FindRouteTableForSubnet example_vpc "subnet-b"
  = Ret ("rtb-custom", None).
Proof.
  exact (X9_associated_route_table_first _ _ example_vpc "subnet-b" _ _ _
           "rtb-custom" eq_refl eq_refl eq_refl).
Defined.

(** An error of the search for the default route table comes with the empty
    identifier. *)
Lemma findDefaultRouteTableForVPC_error {C : Type} `{network.Client C}
  (awsClient : C) (vpcID routeTable : string) (e : error) :
  network.findDefaultRouteTableForVPC awsClient vpcID
  = Ret (routeTable, Some e) ->
  routeTable = EmptyString.
Proof.
  unfold network.findDefaultRouteTableForVPC.
  destruct (network.DescribeRouteTables _ _) as [out [e'|]].
  - intros E. inversion E. reflexivity.
  - destruct out as [out|]; simpl; [|discriminate].
    destruct (network.range_route_tables _) as [[id|]|]; simpl;
      intros E; inversion E; reflexivity.
Qed.

(** X10.  A subnet without an association of its own uses the default route
    table of its VPC: when no route table is associated to the subnet,
    [FindRouteTableForSubnet] describes the subnet and returns what
    [findDefaultRouteTableForVPC] returns for the VPC of the first subnet of
    the answer; an error of the description of the subnet is returned as it
    is, and an answer without a subnet is an error. *)
Theorem X10_falls_back_to_the_default_of_the_vpc :
  forall (C : Type) (K : network.Client C) (awsClient : C) (subnetID : string)
         (out : ec2.DescribeRouteTablesOutput),
    network.DescribeRouteTables awsClient (network.by_subnet subnetID)
    = (Some out, None) ->
    ec2.RouteTables out = [] ->
    (forall sout subnet tl vpcID,
        network.DescribeSubnets awsClient {| ec2.SubnetIds := [subnetID] |}
        = (Some sout, None) ->
        ec2.Subnets sout = subnet :: tl ->
        ec2.VpcId subnet = Some vpcID ->
        network.FindRouteTableForSubnet awsClient subnetID
        = network.findDefaultRouteTableForVPC awsClient vpcID)
    /\ (forall o e,
           network.DescribeSubnets awsClient {| ec2.SubnetIds := [subnetID] |}
           = (o, Some e) ->
           network.FindRouteTableForSubnet awsClient subnetID
           = Ret (EmptyString, Some e))
    /\ (forall sout,
           network.DescribeSubnets awsClient {| ec2.SubnetIds := [subnetID] |}
           = (Some sout, None) ->
           ec2.Subnets sout = [] ->
           network.FindRouteTableForSubnet awsClient subnetID
           = Ret (EmptyString,
                  Some (errorString
                          ("no subnets returned for subnet id " ++ subnetID)%string))).
Proof.
  intros C K awsClient subnetID out Hd Hrt.
  unfold network.FindRouteTableForSubnet.
  change {| ec2.Filters := [ {| ec2.Name := Some "association.subnet-id"%string;
                                ec2.Values := [subnetID] |} ] |}
    with (network.by_subnet subnetID).
  rewrite Hd. simpl. rewrite Hrt. repeat split.
  - intros sout subnet tl vpcID Hs Hsub Hvpc. rewrite Hs. simpl.
    rewrite Hsub, Hvpc. simpl.
    destruct (network.findDefaultRouteTableForVPC awsClient vpcID)
      as [[routeTable [e|]]|msg] eqn:Hf; simpl; try reflexivity.
    apply findDefaultRouteTableForVPC_error in Hf. subst. reflexivity.
  - intros o e Hs. rewrite Hs. reflexivity.
  - intros sout Hs Hsub. rewrite Hs. simpl. rewrite Hsub. reflexivity.
Qed.

Lemma X10_witness :
  network.FindRouteTableForSubnet example_vpc "subnet-a"
  = network.findDefaultRouteTableForVPC example_vpc "vpc-1"
  /\ network.FindRouteTableForSubnet example_vpc "subnet-gone"
     = Ret (EmptyString,
            Some (errorString "no subnets returned for subnet id subnet-gone")).
Proof.
  split.
  - exact (proj1 (X10_falls_back_to_the_default_of_the_vpc _ _ example_vpc
                    "subnet-a" _ eq_refl eq_refl)
             _ _ _ "vpc-1" eq_refl eq_refl eq_refl).
  - exact (proj2 (proj2 (X10_falls_back_to_the_default_of_the_vpc _ _
                           example_vpc "subnet-gone" _ eq_refl eq_refl))
             _ eq_refl eq_refl).
Defined.

(** X11.  Whenever [FindRouteTableForSubnet] returns an error, the
    identifier that it returns with it is empty. *)
Theorem X11_error_comes_with_empty_identifier :
  forall (C : Type) (K : network.Client C) (awsClient : C)
         (subnetID routeTable : string) (e : error),
    network.FindRouteTableForSubnet awsClient subnetID
    = Ret (routeTable, Some e) ->
    routeTable = EmptyString.
Proof.
  intros C K awsClient subnetID routeTable e.
  unfold network.FindRouteTableForSubnet.
  destruct (network.DescribeRouteTables _ _) as [out [e'|]].
  { intros E. inversion E. reflexivity. }
  destruct out as [out|]; simpl; [|discriminate].
  destruct (ec2.RouteTables out) as [|rt tl].
  - destruct (network.DescribeSubnets _ _) as [sout [e'|]].
    { intros E. inversion E. reflexivity. }
    destruct sout as [sout|]; simpl; [|discriminate].
    destruct (ec2.Subnets sout) as [|subnet tl'].
    { intros E. inversion E. reflexivity. }
    destruct (ec2.VpcId subnet) as [vpcID|]; simpl; [|discriminate].
    destruct (network.findDefaultRouteTableForVPC awsClient vpcID)
      as [[rt' [e'|]]|msg]; simpl; intros E; inversion E; reflexivity.
  - destruct (ec2.RouteTableId rt); simpl; discriminate.
Qed.

Lemma X11_witness :
  network.FindRouteTableForSubnet example_vpc "subnet-gone"
  = Ret (EmptyString,
         Some (errorString "no subnets returned for subnet id subnet-gone"))
  /\ EmptyString = EmptyString.
Proof.
  split; [reflexivity|].
  exact (X11_error_comes_with_empty_identifier _ _ example_vpc "subnet-gone"
           EmptyString
           (errorString "no subnets returned for subnet id subnet-gone")
           eq_refl).
Defined.

(** X12.  The two copies of the search agree: on the same answers of the
    client, [FindRouteTableForSubnetForVerification] and
    [findDefaultRouteTableForVPCForVerification] return what
    [FindRouteTableForSubnet] and [findDefaultRouteTableForVPC] return. *)
Theorem X12_verification_copies_agree :
  forall (C : Type) (K : network.Client C) (awsClient : C) (id : string),
    network.FindRouteTableForSubnetForVerification awsClient id
    = network.FindRouteTableForSubnet awsClient id
    /\ network.findDefaultRouteTableForVPCForVerification awsClient id
       = network.findDefaultRouteTableForVPC awsClient id.
Proof. intros. split; reflexivity. Qed.

(** X13.  On well-formed answers the search does not panic: when every
    answer without an error has an output, every route table has its
    identifier, every association its main flag and every subnet its VPC,
    [FindRouteTableForSubnet] returns for every subnet. *)
Theorem X13_no_panic_on_well_formed_answers :
  forall (C : Type) (K : network.Client C) (awsClient : C) (subnetID : string),
    well_formed_answers awsClient ->
    returns (network.FindRouteTableForSubnet awsClient subnetID).
Proof.
  intros C K awsClient subnetID [Hrt Hsn].
  unfold network.FindRouteTableForSubnet.
  pose proof (Hrt (network.by_subnet subnetID)) as H1.
  change {| ec2.Filters := [ {| ec2.Name := Some "association.subnet-id"%string;
                                ec2.Values := [subnetID] |} ] |}
    with (network.by_subnet subnetID).
  destruct (network.DescribeRouteTables awsClient (network.by_subnet subnetID))
    as [[out|] [e|]]; try (eexists; reflexivity); [|contradiction].
  simpl. destruct (ec2.RouteTables out) as [|rt tl].
  - pose proof (Hsn {| ec2.SubnetIds := [subnetID] |}) as H2.
    destruct (network.DescribeSubnets awsClient _) as [[sout|] [e|]];
      try (eexists; reflexivity); [|contradiction].
    simpl. destruct (ec2.Subnets sout) as [|subnet tl'];
      [eexists; reflexivity|].
    inversion H2 as [|? ? Hv _]. subst.
    destruct (ec2.VpcId subnet) as [vpcID|]; [|congruence]. simpl.
    unfold network.findDefaultRouteTableForVPC.
    pose proof (Hrt {| ec2.Filters :=
                         [ {| ec2.Name := Some "vpc-id"%string;
                              ec2.Values := [vpcID] |} ] |}) as H3.
    destruct (network.DescribeRouteTables awsClient _) as [[out'|] [e|]];
      try (eexists; reflexivity); [|contradiction].
    simpl. rewrite (range_route_tables_set _ H3). simpl.
    destruct (find network.has_main (ec2.RouteTables out'));
      eexists; reflexivity.
  - inversion H1 as [|? ? [Hid _] _]. subst.
    destruct (ec2.RouteTableId rt); [|congruence]. eexists. reflexivity.
Qed.

Lemma X13_witness :
  returns (network.FindRouteTableForSubnet example_flat "subnet-a").
Proof.
  apply (X13_no_panic_on_well_formed_answers _ _ example_flat "subnet-a").
  split; intros q; simpl; repeat constructor; discriminate.
Defined.

(** ** The options of a manual investigation *)

Lemma Contains_In (s : list string) (v : string) :
  cad.Contains s v = true <-> In v s.
Proof.
  unfold cad.Contains. rewrite existsb_exists. split.
  - intros [x [Hin Hx]]. apply String.eqb_eq in Hx. subst. exact Hin.
  - intros Hin. exists v. split; [exact Hin|apply String.eqb_refl].
Qed.

Lemma validate_environment (Quote : string -> string) (o : cad.cadRunOptions) :
  cad.validate Quote o = None ->
  cad.environment o = "stage" \/ cad.environment o = "production".
Proof.
  unfold cad.validate.
  destruct (String.eqb (cad.clusterID o) ""); [discriminate|].
  destruct (cad.Contains cad.validInvestigations (cad.investigation o));
    cbn [negb]; [|discriminate].
  destruct (cad.Contains cad.validEnvironments (cad.environment o)) eqn:He;
    cbn [negb]; [|discriminate].
  intros _. apply Contains_In in He.
  destruct He as [He|[He|[]]]; auto.
Qed.

(** X14.  [validate] accepts the options exactly when the cluster is named,
    the investigation is one of the ten known ones, the environment is
    ["stage"] or ["production"] and a reason is given; the text of [%q] has
    no part in it. *)
Theorem X14_validate_accepts :
  forall (Quote : string -> string) (o : cad.cadRunOptions),
    cad.validate Quote o = None
    <-> cad.clusterID o <> ""
        /\ In (cad.investigation o) cad.validInvestigations
        /\ (cad.environment o = "stage" \/ cad.environment o = "production")
        /\ cad.elevationReason o <> "".
Proof.
  intros Quote o. split.
  - intros H. pose proof (validate_environment Quote o H) as Henv.
    unfold cad.validate in H.
    destruct (String.eqb_spec (cad.clusterID o) "") as [Hc|Hc];
      [discriminate|].
    destruct (cad.Contains cad.validInvestigations (cad.investigation o))
      eqn:Hi; cbn [negb] in H; [|discriminate].
    destruct (cad.Contains cad.validEnvironments (cad.environment o));
      cbn [negb] in H; [|discriminate].
    destruct (String.eqb_spec (cad.elevationReason o) "") as [Hr|Hr];
      [discriminate|].
    apply Contains_In in Hi. auto.
  - intros [Hc [Hi [He Hr]]]. unfold cad.validate.
    apply String.eqb_neq in Hc. apply String.eqb_neq in Hr.
    apply Contains_In in Hi.
    assert (Hin : cad.Contains cad.validEnvironments (cad.environment o) = true).
    { apply Contains_In. destruct He as [He|He]; rewrite He; simpl; auto. }
    rewrite Hc, Hi, Hin, Hr. reflexivity.
Qed.

(** X15.  After [validate] has accepted the options, [getCADClusterConfig]
    gives the cluster and the namespace of the environment that the options
    name: those of stage for ["stage"], and those of production only for
    ["production"].  The cluster and the namespace are always of the same
    environment. *)
Theorem X15_validated_environment_selects_cluster :
  forall (Quote : string -> string) (o : cad.cadRunOptions),
    (cad.validate Quote o = None ->
     (cad.environment o = "stage"
      /\ cad.getCADClusterConfig o
         = (cad.cadClusterIDStage, cad.cadNamespaceStage))
     \/ (cad.environment o = "production"
         /\ cad.getCADClusterConfig o
            = (cad.cadClusterIDProd, cad.cadNamespaceProd)))
    /\ (cad.getCADClusterConfig o = (cad.cadClusterIDStage, cad.cadNamespaceStage)
        \/ cad.getCADClusterConfig o
           = (cad.cadClusterIDProd, cad.cadNamespaceProd)).
Proof.
  intros Quote o. split.
  - intros H. apply validate_environment in H.
    destruct H as [He|He]; unfold cad.getCADClusterConfig;
      rewrite He; [left|right]; split; reflexivity.
  - unfold cad.getCADClusterConfig.
    destruct (String.eqb _ _); [left|right]; reflexivity.
Qed.


(** ** The details of a cluster for Dynatrace *)

Lemma take_drop (n : nat) (s : string) :
  s = (strings.take n s ++ drop n s)%string.
Proof.
  revert s. induction n as [|n IH]; intros s; [reflexivity|].
  destruct s as [|c r]; [reflexivity|]. simpl. f_equal. apply IH.
Qed.

Lemma HasPrefix_take (s p : string) :
  strings.HasPrefix s p = true -> strings.take (len p) s = p.
Proof.
  revert s. induction p as [|a p IH]; intros s Hp; [reflexivity|].
  destruct s as [|b r]; [discriminate|]. simpl in Hp.
  apply andb_true_iff in Hp. destruct Hp as [Hab Hp].
  apply Ascii.eqb_eq in Hab. subst b. simpl. f_equal. apply IH. exact Hp.
Qed.

Lemma Index_unfold (s sep : string) :
  strings.Index s sep
  = if strings.HasPrefix s sep then Some O
    else match s with
         | EmptyString => None
         | String _ r => option_map S (strings.Index r sep)
         end.
Proof. destruct s; reflexivity. Qed.

(** The piece up to the end of the first instance of [sep] ends with
    [sep]. *)
Lemma Index_take (s sep : string) (m : nat) :
  strings.Index s sep = Some m ->
  strings.take (m + len sep) s = (strings.take m s ++ sep)%string.
Proof.
  revert m. induction s as [|c r IH]; intros m Hm; rewrite Index_unfold in Hm.
  - destruct (strings.HasPrefix "" sep) eqn:Hp; [|discriminate].
    inversion Hm; subst m. apply HasPrefix_take in Hp. exact Hp.
  - destruct (strings.HasPrefix (String c r) sep) eqn:Hp.
    + inversion Hm; subst m. apply HasPrefix_take in Hp. exact Hp.
    + destruct (strings.Index r sep) as [m'|] eqn:Hr; [|discriminate].
      inversion Hm; subst m. simpl. f_equal. apply IH. reflexivity.
Qed.

(** [Index] gives the first instance: [sep] starts at no earlier place. *)
Lemma Index_first (s sep : string) (m : nat) :
  strings.Index s sep = Some m ->
  strings.HasPrefix (drop m s) sep = true
  /\ forall k, (k < m)%nat -> strings.HasPrefix (drop k s) sep = false.
Proof.
  revert m. induction s as [|c r IH]; intros m Hm; rewrite Index_unfold in Hm.
  - destruct (strings.HasPrefix "" sep) eqn:Hp; [|discriminate].
    inversion Hm; subst m. split; [exact Hp|]. intros k Hk. lia.
  - destruct (strings.HasPrefix (String c r) sep) eqn:Hp.
    + inversion Hm; subst m. split; [exact Hp|]. intros k Hk. lia.
    + destruct (strings.Index r sep) as [m'|] eqn:Hr; [|discriminate].
      inversion Hm; subst m. destruct (IH m' eq_refl) as [H1 H2].
      split; [exact H1|]. intros [|k] Hk; [exact Hp|].
      simpl. apply H2. lia.
Qed.

Lemma Index_nonempty (s sep : string) (m : nat) :
  strings.Index s sep = Some m -> sep <> "" -> (1 <= len s)%nat.
Proof.
  intros Hm Hsep. destruct s as [|c r]; [|simpl; lia].
  destruct sep as [|a p]; [contradiction|]. discriminate.
Qed.

(** The first piece of [SplitAfter]: there is none only when both strings
    are empty; it is a prefix of [s], and for a separator that is not empty
    it ends with the first instance of the separator, or is [s] when there
    is none. *)
Lemma SplitAfter_head (s sep : string) :
  (strings.SplitAfter s sep = [] /\ s = "" /\ sep = "")
  \/ exists x tl rest,
       strings.SplitAfter s sep = x :: tl
       /\ s = (x ++ rest)%string
       /\ (sep <> "" ->
           x = match strings.Index s sep with
               | None => s
               | Some m => (strings.take m s ++ sep)%string
               end).
Proof.
  unfold strings.SplitAfter, strings.genSplit.
  destruct (String.eqb_spec sep "") as [Hsep|Hsep].
  - subst sep. destruct s as [|c r]; [left; auto|]. right.
    unfold strings.explode, strings.RuneCountInString.
    change (len (String c r)) with (S (len r)).
    cbn [strings.RuneCount_loop].
    set (n := strings.RuneCount_loop _ _).
    replace (S n - 1)%nat with n by lia.
    change (0 <? S n)%nat with true.
    destruct n as [|n].
    + exists (String c r), [], "". cbn [strings.explode_loop].
      split; [reflexivity|]. split; [|intros Hc; contradiction].
      clear. induction (String c r) as [|a t IH]; [reflexivity|].
      simpl. f_equal. exact IH.
    + cbn [strings.explode_loop].
      destruct (strings.explode_loop n _) as [a s'].
      eexists _, _, _. split; [reflexivity|].
      split; [apply take_drop|intros Hc; contradiction].
  - right. unfold strings.Count.
    destruct (String.eqb_spec sep "") as [Hc|_]; [contradiction|].
    destruct (strings.Index s sep) as [m|] eqn:Hm.
    + pose proof (Index_nonempty _ _ _ Hm Hsep) as Hlen.
      destruct (len s) as [|k] eqn:Hk; [lia|].
      cbn [strings.Count_loop]. rewrite Hm.
      set (c := strings.Count_loop _ _ _).
      assert (Hn : exists n',
                 ((if (S k + 1 <? S c + 1)%nat then (S k + 1)%nat
                   else (S c + 1)%nat) - 1)%nat = S n').
      { destruct (S k + 1 <? S c + 1)%nat; [exists k|exists c]; lia. }
      destruct Hn as [n' Hn]. rewrite Hn. cbn [strings.genSplit_loop].
      rewrite Hm. eexists _, _, _. split; [reflexivity|].
      split; [apply take_drop|]. intros _. apply Index_take. exact Hm.
    + assert (Hc : strings.Count_loop (len s) s sep = O).
      { destruct (len s); [reflexivity|]. cbn [strings.Count_loop].
        rewrite Hm. reflexivity. }
      rewrite Hc.
      assert (Hn : ((if (len s + 1 <? 0 + 1)%nat then (len s + 1)%nat
                     else (0 + 1)%nat) - 1)%nat = O).
      { destruct (Nat.ltb_spec (len s + 1) (0 + 1)); lia. }
      rewrite Hn. cbn [strings.genSplit_loop].
      exists s, [], "". split; [reflexivity|]. split; [|auto].
      clear. induction s as [|a t IH]; [reflexivity|].
      simpl. f_equal. exact IH.
Qed.

Ltac break_match H :=
  repeat match type of H with
         | context [match ?x with _ => _ end] => destruct x eqn:?
         end.

(** X16.  Every error of [FetchClusterDetails] comes with the zero
    [HCPCluster]: nothing of what was fetched before the error is given
    back. *)
Theorem X16_cluster_error_comes_with_zero_details :
  forall (Connection Cluster : Type) (ocm : dynatrace.Ocm Connection Cluster)
         (clusterKey : string) (d : dynatrace.HCPCluster) (e : error),
    dynatrace.FetchClusterDetails clusterKey = Ret (d, Some e) ->
    d = dynatrace.zero.
Proof.
  intros Connection Cluster ocm clusterKey d e H.
  unfold dynatrace.FetchClusterDetails, dynatrace.defer,
    dynatrace.with_connection, bind, dynatrace.index0 in H.
  break_match H; try discriminate;
    apply (f_equal (fun r => match r with Ret (x, _) => x | Panic _ => d end))
      in H; symmetry; exact H.
Qed.

Lemma X16_witness :
  dynatrace.FetchClusterDetails (H := dynatrace.fleet) "worker"
  = Ret (dynatrace.zero, Some dynatrace.ErrUnsupportedCluster)
  /\ dynatrace.zero = dynatrace.zero.
Proof.
  split; [reflexivity|].
  apply (X16_cluster_error_comes_with_zero_details _ _ dynatrace.fleet "worker"
           dynatrace.zero dynatrace.ErrUnsupportedCluster).
  reflexivity.
Defined.

(** X17.  In the details that [FetchClusterDetails] gives without an error,
    the hosted namespace is the start of the HCP namespace; and when there
    is an internal identifier, the klusterlet namespace is ["klusterlet-"]
    before the identifier, and the hosted namespace is the HCP namespace
    up to the end of the first instance of the identifier in it, or the
    whole of it when the identifier is not in it. *)
Theorem X17_namespaces_of_a_hosted_cluster :
  forall (Connection Cluster : Type) (ocm : dynatrace.Ocm Connection Cluster)
         (clusterKey : string) (d : dynatrace.HCPCluster),
    dynatrace.FetchClusterDetails clusterKey = Ret (d, None) ->
    (exists rest,
        dynatrace.hcpNamespace d = (dynatrace.hostedNS d ++ rest)%string)
    /\ (dynatrace.internalID d <> "" ->
        dynatrace.klusterletNS d
        = ("klusterlet-" ++ dynatrace.internalID d)%string
        /\ dynatrace.hostedNS d
           = match strings.Index (dynatrace.hcpNamespace d)
                     (dynatrace.internalID d) with
             | None => dynatrace.hcpNamespace d
             | Some m =>
                 (strings.take m (dynatrace.hcpNamespace d)
                  ++ dynatrace.internalID d)%string
             end).
Proof.
  intros Connection Cluster ocm clusterKey d H.
  unfold dynatrace.FetchClusterDetails, dynatrace.defer,
    dynatrace.with_connection, bind in H.
  destruct (dynatrace.IsValidClusterKey clusterKey); [discriminate|].
  destruct dynatrace.CreateConnection as [connection [err|]]; [discriminate|].
  destruct (dynatrace.Close connection); [|discriminate].
  destruct (dynatrace.GetCluster connection clusterKey) as [cluster [err|]];
    [discriminate|].
  destruct (negb (dynatrace.Enabled cluster)).
  - break_match H; try discriminate.
    inversion H; subst d; clear H. simpl.
    split; [exists ""; reflexivity|]. intros Hc. contradiction.
  - destruct (dynatrace.GetManagementCluster _) as [mgmtCluster [err|]];
      [discriminate|].
    destruct (dynatrace.GetServiceCluster _) as [svcCluster [err|]];
      [discriminate|].
    destruct (dynatrace.GetHCPNamespace _) as [ns [err|]]; [discriminate|].
    destruct (SplitAfter_head ns (dynatrace.ID cluster))
      as [[Hs _]|[x [tl [rest [Hs [Hpre Hx]]]]]];
      rewrite Hs in H; cbn [dynatrace.index0] in H; [discriminate|].
    destruct (dynatrace.GetDynatraceURLFromLabel _) as [url [err|]];
      [discriminate|].
    inversion H; subst d; clear H. simpl.
    split; [exists rest; exact Hpre|].
    intros Hid. split; [reflexivity|]. apply Hx. exact Hid.
Qed.

Lemma X17_witness :
  dynatrace.klusterletNS
    (match dynatrace.FetchClusterDetails (H := dynatrace.fleet) "hcp1" with
     | Ret (d, _) => d
     | Panic _ => dynatrace.zero
     end) = "klusterlet-hcp1"
  /\ dynatrace.hostedNS
       (match dynatrace.FetchClusterDetails (H := dynatrace.fleet) "hcp1" with
        | Ret (d, _) => d
        | Panic _ => dynatrace.zero
        end) = "ocm-production-hcp1".
Proof.
  destruct (X17_namespaces_of_a_hosted_cluster _ _ dynatrace.fleet "hcp1" _
              eq_refl) as [_ H].
  destruct (H ltac:(discriminate)) as [H1 H2].
  split; [exact H1|exact H2].
Defined.

(** X18.  When closing the connection does not panic, [FetchClusterDetails]
    panics in one case only: the cluster is a hosted one, its management
    cluster, its service cluster and its HCP namespace are found, and both
    the identifier of the cluster and the HCP namespace are empty.  In
    every other case it returns. *)
Theorem X18_panics_only_on_empty_identifier_and_namespace :
  forall (Connection Cluster : Type) (ocm : dynatrace.Ocm Connection Cluster)
         (clusterKey : string),
    (forall c, returns (dynatrace.Close c)) ->
    (~ returns (dynatrace.FetchClusterDetails clusterKey))
    <-> (dynatrace.IsValidClusterKey clusterKey = None
         /\ snd dynatrace.CreateConnection = None
         /\ exists cluster,
             dynatrace.GetCluster (fst dynatrace.CreateConnection) clusterKey
             = (cluster, None)
             /\ dynatrace.Enabled cluster = true
             /\ snd (dynatrace.GetManagementCluster (dynatrace.ID cluster))
                = None
             /\ snd (dynatrace.GetServiceCluster (dynatrace.ID cluster)) = None
             /\ dynatrace.GetHCPNamespace (dynatrace.ID cluster) = ("", None)
             /\ dynatrace.ID cluster = "").
Proof.
  intros Connection Cluster ocm clusterKey Hclose.
  assert (Hret : forall (A : Type) (a : A) (P : Prop),
             ~ returns (Ret a) -> P).
  { intros A a P Hn. exfalso. apply Hn. exists a. reflexivity. }
  unfold dynatrace.FetchClusterDetails, dynatrace.defer.
  destruct (dynatrace.IsValidClusterKey clusterKey) as [err|].
  { split; [apply Hret|intros [Hc _]; discriminate]. }
  destruct dynatrace.CreateConnection as [connection [err|]]; cbn [fst snd].
  { split; [apply Hret|intros [_ [Hc _]]; discriminate]. }
  destruct (Hclose connection) as [r Hr]. rewrite Hr.
  unfold dynatrace.with_connection.
  destruct (dynatrace.GetCluster connection clusterKey) as [cluster [err|]].
  { split; [apply Hret|]. intros [_ [_ [c [Hc _]]]]. discriminate. }
  destruct (dynatrace.Enabled cluster) eqn:He; cbn [negb].
  2:{ split.
      - destruct (dynatrace.IsManagementCluster _) as [isMC err].
        destruct (negb isMC || _); [apply Hret|].
        destruct (dynatrace.GetDynatraceURLFromLabel _) as [url [e|]];
          apply Hret.
      - intros [_ [_ [c [Hc [Hen _]]]]].
        inversion Hc; subst c. congruence. }
  destruct (dynatrace.GetManagementCluster _) as [mgmtCluster [err|]] eqn:Hmg.
  { split; [apply Hret|].
    intros [_ [_ [c [Hc [_ [Hm _]]]]]]. inversion Hc; subst c.
    rewrite Hmg in Hm. discriminate Hm. }
  destruct (dynatrace.GetServiceCluster _) as [svcCluster [err|]] eqn:Hsvc.
  { split; [apply Hret|].
    intros [_ [_ [c [Hc [_ [_ [Hs _]]]]]]]. inversion Hc; subst c.
    rewrite Hsvc in Hs. discriminate Hs. }
  destruct (dynatrace.GetHCPNamespace _) as [ns [err|]] eqn:Hns.
  { split; [apply Hret|].
    intros [_ [_ [c [Hc [_ [_ [_ [Hn _]]]]]]]]. inversion Hc; subst c.
    rewrite Hns in Hn. discriminate Hn. }
  unfold bind.
  destruct (SplitAfter_head ns (dynatrace.ID cluster))
    as [[Hs [Hn Hid]]|[x [tl [rest [Hs _]]]]]; rewrite Hs;
    cbn [dynatrace.index0].
  - split.
    + intros _. split; [reflexivity|]. split; [reflexivity|].
      exists cluster. subst ns. rewrite Hmg, Hsvc, Hns. repeat split; auto.
    + intros _ [a Ha]. discriminate.
  - split.
    + destruct (dynatrace.GetDynatraceURLFromLabel _) as [url [e|]];
        apply Hret.
    + intros [_ [_ [c [Hc [_ [_ [_ [Hn Hid]]]]]]]]. inversion Hc; subst c.
      rewrite Hns in Hn. inversion Hn; subst ns. rewrite Hid in Hs.
      discriminate.
Qed.

Lemma X18_witness :
  (forall c : unit, returns (dynatrace.Close (Ocm := dynatrace.fleet) c))
  /\ ~ ~ returns (dynatrace.FetchClusterDetails (H := dynatrace.fleet) "hcp1").
Proof.
  assert (Hclose : forall c : unit,
             returns (dynatrace.Close (Ocm := dynatrace.fleet) c))
    by (intros c; exists None; reflexivity).
  split; [exact Hclose|]. intros Hn.
  apply (X18_panics_only_on_empty_identifier_and_namespace
           _ _ dynatrace.fleet "hcp1" Hclose) in Hn.
  destruct Hn as [_ [_ [cluster [Hc [_ [_ [_ [_ Hid]]]]]]]].
  apply (f_equal (fun r => dynatrace.ID (fst r))) in Hc. cbn [fst] in Hc.
  rewrite <- Hc in Hid. discriminate Hid.
Defined.


Lemma X14_witness : cad.validate (fun s => s) example_options = None.
Proof.
  apply (proj2 (X14_validate_accepts (fun s => s) example_options)).
  simpl. repeat split; auto; discriminate.
Defined.

Lemma X15_witness :
  (cad.environment example_options = "stage"
   /\ cad.getCADClusterConfig example_options
      = (cad.cadClusterIDStage, cad.cadNamespaceStage))
  \/ (cad.environment example_options = "production"
      /\ cad.getCADClusterConfig example_options
         = (cad.cadClusterIDProd, cad.cadNamespaceProd)).
Proof.
  apply (proj1 (X15_validated_environment_selects_cluster
                  (fun s => s) example_options)).
  reflexivity.
Defined.


(** ** What follows the minor of a version *)

Lemma append_String_assoc (a b c : string) :
  ((a ++ b) ++ c)%string = (a ++ (b ++ c))%string.
Proof.
  induction a as [|x a IH]; [reflexivity|]. simpl. f_equal. exact IH.
Qed.

(** The scan of [%d.%d] stops after the digits of the minor: what follows
    them is not read. *)
Lemma Sscanf_stops_after_minor (v rest : string) (major minor : Z) :
  version_components v = Some (major, minor) ->
  major <= MaxInt -> minor <= MaxInt ->
  match rest with
  | String c _ => is_digit c = false
  | EmptyString => True
  end ->
  fmt.Sscanf (v ++ rest) 0 0 = (major, minor, None).
Proof.
  unfold version_components.
  destruct (digit_span v) as [a r0] eqn:Ha.
  destruct a as [|a0 a']; [discriminate|].
  destruct r0 as [|dot r]; [discriminate|].
  destruct (Ascii.eqb dot ".") eqn:Hdot; [|discriminate].
  apply Ascii.eqb_eq in Hdot. subst dot.
  destruct (digit_span r) as [b rest'] eqn:Hb.
  destruct b as [|b0 b']; [discriminate|].
  destruct rest' as [|x y]; [|discriminate].
  intros H Hmaj Hmin Hrest. inversion H. subst major minor. clear H.
  apply digits_split in Ha. destruct Ha as [-> [Hda _]].
  apply digits_split in Hb. destruct Hb as [-> [Hdb _]].
  replace ((String a0 a' ++ String "." (String b0 b' ++ "")) ++ rest)%string
    with (String a0 a' ++ String "." (String b0 b' ++ rest))%string.
  2:{ rewrite append_String_assoc. cbn [String.append].
      rewrite (append_String_assoc b' EmptyString rest). reflexivity. }
  unfold fmt.Sscanf.
  rewrite (verb_d_digits (String a0 a') _ Hda ltac:(discriminate) Hmaj)
    by reflexivity.
  rewrite literal_dot_here.
  rewrite (verb_d_digits (String b0 b') rest Hdb ltac:(discriminate) Hmin)
    by exact Hrest.
  reflexivity.
Qed.

(** X19.  What follows the minor of a version is ignored.  When the decoded
    version is a version [MAJOR.MINOR] in decimal digits, within the range
    of [int], followed by any text that does not start with a digit (as in
    ["1.8_0"], ["1.9.1"] or ["1.10-rc"]), [ExtractUserDetails] treats it as
    [MAJOR.MINOR]: it returns the decoded details when the major is 1 and
    the minor at least 8, and the unsupported-version error, which quotes
    the whole version, otherwise. *)
Theorem X19_what_follows_the_minor_is_ignored :
  forall data res v rest major minor,
    Unmarshal data zero = (res, None) ->
    EventVersion res = (v ++ rest)%string ->
    version_components v = Some (major, minor) ->
    major <= MaxInt -> minor <= MaxInt ->
    match rest with
    | String c _ => is_digit c = false
    | EmptyString => True
    end ->
    (major = 1 /\ 8 <= minor ->
     ExtractUserDetails (Some data) = Ret (Some res, None))
    /\ (major <> 1 \/ minor < 8 ->
        ExtractUserDetails (Some data)
        = Ret (Some zero, Some (UnsupportedVersion (v ++ rest)%string))).
Proof.
  intros data res v rest major minor HU HV Hc Hmaj Hmin Hrest.
  pose proof (Sscanf_stops_after_minor v rest major minor Hc Hmaj Hmin Hrest)
    as HS.
  rewrite <- HV in HS. rewrite <- HV.
  rewrite (ExtractUserDetails_scanned _ _ _ _ HU HS).
  pose proof (window_spec major minor) as HW.
  destruct (negb (major =? 1) || (minor <? 8)).
  - split; [|reflexivity]. intros [-> Hm].
    destruct (proj1 HW eq_refl) as [H|H]; [congruence|lia].
  - split; [reflexivity|]. intros H. apply HW in H. discriminate.
Qed.

Lemma X19_witness :
  ExtractUserDetails (Some (json_text "{'eventVersion':'1.8_0'}"))
  = Ret (Some {| EventVersion := "1.8_0"; UserIdentity := zero_userIdentity;
                 EventRegion := ""; EventId := ""; ErrorCode := "" |}, None)
  /\ ExtractUserDetails (Some (json_text "{'eventVersion':'1.1_0'}"))
     = Ret (Some zero, Some (UnsupportedVersion "1.1_0")).
Proof.
  split.
  - apply (proj1 (X19_what_follows_the_minor_is_ignored
                    (json_text "{'eventVersion':'1.8_0'}") _ "1.8" "_0" 1 8
                    eq_refl eq_refl eq_refl ltac:(discriminate)
                    ltac:(discriminate) eq_refl)).
    split; [reflexivity|discriminate].
  - apply (proj2 (X19_what_follows_the_minor_is_ignored
                    (json_text "{'eventVersion':'1.1_0'}")
                    {| EventVersion := "1.1_0";
                       UserIdentity := zero_userIdentity;
                       EventRegion := ""; EventId := ""; ErrorCode := "" |}
                    "1.1" "_0" 1 1
                    eq_refl eq_refl eq_refl ltac:(discriminate)
                    ltac:(discriminate) eq_refl)).
    right. reflexivity.
Defined.
